(** * The OGC API fixture record/replay handler of autotest/gdrivers/ogcapi.py

    A shallow embedding of [sanitize_url] and [OGCAPIHTTPHandler.do_GET],
    together with the parts of Python they rest on: [str.replace],
    [str.find], [re.sub] for the two compiled patterns, the files of the test
    data directory and the upstream request made while recording.

    Python [str] and [bytes] values are both lists of 8-bit characters: the
    request path is handed to the handler decoded as ISO-8859-1, and on that
    range the class [\d] is [0-9] for [str] and [bytes] patterns alike.

    The platform is a POSIX system with a UTF-8 file system encoding, as the
    test suite runs on: [os.path] is [posixpath], a path is refused by [open]
    when it holds a NUL byte or a name longer than the file system takes, the
    test data directory exists and can be written to, and what is written to
    the client arrives. *)

From Stdlib Require Import Ascii String ZArith Lia DecimalString.
From stdpp Require Import base option list gmap strings.

Local Open Scope nat_scope.

Abbreviation str := (list ascii).

(** A literal of the source, as a list of characters. *)
Definition lit (s : string) : str := list_ascii_of_string s.

(** ** Python string primitives *)

Module Py.

(** [s.startswith(p)] *)
Fixpoint starts_with (p s : str) : bool :=
  match p, s with
  | [], _ => true
  | a :: p', c :: s' => if Ascii.eqb a c then starts_with p' s' else false
  | _ :: _, [] => false
  end.

(** The scan of [s.replace(old, new)] for a non-empty [old]: occurrences are
    taken leftmost first and do not overlap; [skip] counts the characters of
    the occurrence just replaced that are still to be passed over. *)
Fixpoint replace_go (old new : str) (skip : nat) (s : str) : str :=
  match s with
  | [] => []
  | c :: s' =>
      match skip with
      | S k => replace_go old new k s'
      | O =>
          if starts_with old s
          then new ++ replace_go old new (length old - 1) s'
          else c :: replace_go old new 0 s'
      end
  end.

(** [s.replace(old, new)]; an empty [old] matches before every character and
    at the end. *)
Definition replace (old new s : str) : str :=
  match old with
  | [] => new ++ flat_map (fun c => c :: new) s
  | _ :: _ => replace_go old new 0 s
  end.

(** [s.find(sub)]: the lowest index at which [sub] occurs, or -1. *)
Fixpoint find_from (sub s : str) (i : Z) : Z :=
  if starts_with sub s then i
  else match s with
       | [] => (-1)%Z
       | _ :: s' => find_from sub s' (i + 1)%Z
       end.

Definition find (sub s : str) : Z := find_from sub s 0%Z.

(** [str(n)] for a non-negative integer. *)
Definition str_of_N (n : N) : str :=
  lit (NilEmpty.string_of_uint (N.to_uint n)).

(** [os.path.join(a, b)] where [os.path] is [posixpath], the module that
    [os.path] stands for on a POSIX system. *)
Definition os_path_join (a b : str) : str :=
  if starts_with (lit "/") b then b
  else match last a with
       | None => b
       | Some c => if Ascii.eqb c "/"%char then a ++ b else a ++ lit "/" ++ b
       end.

(** [urllib.parse.urlsplit(url).path] for a URL of the shape
    [scheme://netloc/path?query#fragment]: what follows the network location,
    up to the first [?] or [#]. *)
Fixpoint until_any (stops : str) (s : str) : str * str :=
  match s with
  | [] => ([], [])
  | c :: s' =>
      if bool_decide (c ∈ stops) then ([], s)
      else let '(a, b) := until_any stops s' in (c :: a, b)
  end.

Definition urlsplit_path (url : str) : str :=
  let '(_, rest) := until_any (lit ":") url in
  let rest := drop 1 rest in
  let rest :=
    if starts_with (lit "//") rest
    then snd (until_any (lit "/?#") (drop 2 rest))
    else rest in
  fst (until_any (lit "?#") rest).

(** [s.encode("utf8")] on characters below U+0100: one byte below U+0080, two
    bytes from there on. *)
Definition encode_utf8 (s : str) : str :=
  flat_map (fun c =>
    let n := nat_of_ascii c in
    if n <? 128 then [c]
    else [ascii_of_nat (192 + n / 64); ascii_of_nat (128 + n mod 64)]) s.

End Py.

(** ** The fragment of [re] used by the two patterns *)

Module Re.

(** Character classes. *)
Inductive cclass : Type :=
  | CChar (c : ascii)   (* a literal character *)
  | CAny                (* [.]: anything but a newline *)
  | CDigit.             (* [\d] *)

Definition is_digit (c : ascii) : bool :=
  (48 <=? nat_of_ascii c) && (nat_of_ascii c <=? 57).

Definition cmatch (cl : cclass) (c : ascii) : bool :=
  match cl with
  | CChar a => Ascii.eqb a c
  | CAny => negb (Ascii.eqb c "010"%char)
  | CDigit => is_digit c
  end.

Inductive regex : Type :=
  | Atom (cl : cclass)
  | Plus (cl : cclass)            (* [cl+], greedy *)
  | Rep (n : nat) (cl : cclass)   (* [cl{n}] *)
  | Seq (r1 r2 : regex)
  | Group (r : regex).            (* the capturing group 1 *)

(** A successful match: the number of characters matched and the span of
    group 1, both relative to the position the match starts at. *)
Definition span : Type := option (nat * nat).
Definition found : Type := nat * span.

(** The backtracking matcher, in continuation-passing style: alternatives are
    tried in the order of the engine, the greedy one first. *)
Fixpoint plus_go (cl : cclass) (k : str -> nat -> option found)
    (s : str) (pos : nat) : option found :=
  match s with
  | [] => None
  | c :: s' =>
      if cmatch cl c then
        match plus_go cl k s' (S pos) with
        | Some r => Some r
        | None => k s' (S pos)
        end
      else None
  end.

Fixpoint rep_go (cl : cclass) (n : nat) (k : str -> nat -> option found)
    (s : str) (pos : nat) : option found :=
  match n with
  | O => k s pos
  | S n' =>
      match s with
      | [] => None
      | c :: s' => if cmatch cl c then rep_go cl n' k s' (S pos) else None
      end
  end.

Fixpoint run (r : regex) (s : str) (pos : nat) (g : span)
    (k : str -> nat -> span -> option found) : option found :=
  match r with
  | Atom cl =>
      match s with
      | [] => None
      | c :: s' => if cmatch cl c then k s' (S pos) g else None
      end
  | Plus cl => plus_go cl (fun s' p' => k s' p' g) s pos
  | Rep n cl => rep_go cl n (fun s' p' => k s' p' g) s pos
  | Seq r1 r2 => run r1 s pos g (fun s1 p1 g1 => run r2 s1 p1 g1 k)
  | Group r1 => run r1 s pos g (fun s1 p1 _ => k s1 p1 (Some (pos, p1)))
  end.

(** [pattern.match(s)]: a match anchored at the start of [s]. *)
Definition re_match (r : regex) (s : str) : option found :=
  run r s 0 None (fun _ p g => Some (p, g)).

(** The replacement argument of [sub]: literal bytes, or the template [\1]. *)
Inductive repl : Type :=
  | ReplBytes (b : str)
  | ReplGroup1.

Definition expand (rp : repl) (s : str) (mt : found) : str :=
  match rp with
  | ReplBytes b => b
  | ReplGroup1 =>
      match snd mt with
      | Some (i, j) => take (j - i) (drop i s)
      | None => []
      end
  end.

(** [pattern.sub(repl, s)]: leftmost matches, not overlapping, each replaced
    by the expansion of [repl]; everything else is copied. An empty match is
    replaced and the scan moves on by one character. *)
Fixpoint sub_go (r : regex) (rp : repl) (skip : nat) (s : str) : str :=
  match s with
  | [] =>
      match re_match r [] with
      | Some mt => expand rp [] mt
      | None => []
      end
  | c :: s' =>
      match skip with
      | S k => sub_go r rp k s'
      | O =>
          match re_match r s with
          | Some (S n, g) => expand rp s (S n, g) ++ sub_go r rp n s'
          | Some (O, g) => expand rp s (O, g) ++ c :: sub_go r rp 0 s'
          | None => c :: sub_go r rp 0 s'
          end
      end
  end.

Definition sub (r : regex) (rp : repl) (s : str) : str := sub_go r rp 0 s.

(** The concatenation of literal characters. *)
Fixpoint chars (s : str) (r : regex) : regex :=
  match s with
  | [] => r
  | c :: s' => Seq (Atom (CChar c)) (chars s' r)
  end.

End Re.

(** ** Module constants of ogcapi.py *)

Definition TEST_DATA_SOURCE_ENDPOINT : str := lit "https://maps.gnosis.earth/ogcapi".

(** [re.compile(rb"http://127.0.0.1:\d{4}")]: the dots are not escaped, so
    each of them stands for any byte but a newline. *)
Definition REPLACE_PORT_RE : Re.regex :=
  Re.chars (lit "http://127")
    (Re.Seq (Re.Atom Re.CAny)
       (Re.chars (lit "0")
          (Re.Seq (Re.Atom Re.CAny)
             (Re.chars (lit "0")
                (Re.Seq (Re.Atom Re.CAny)
                   (Re.chars (lit "1:") (Re.Rep 4 Re.CDigit))))))).

(** [re.compile(r"(\d+\.\d{4})\d+")] *)
Definition REPLACE_PRECISION_RE : Re.regex :=
  Re.Seq
    (Re.Group
       (Re.Seq (Re.Plus Re.CDigit)
          (Re.Seq (Re.Atom (Re.CChar "."%char)) (Re.Rep 4 Re.CDigit))))
    (Re.Plus Re.CDigit).

(** ** Fixture key derivation *)

Definition sanitize_url (url : str) : str :=
  let chars := lit "&#/?=:,()" in
  let text := fold_left (fun text c => Py.replace [c] (lit "_") text) chars url in
  let text := Re.sub REPLACE_PRECISION_RE Re.ReplGroup1 text in
  Py.replace (lit "_fakeogcapi") (lit "request") text.

(** ** The world of the handler: test data files and the upstream service *)

(** What a path of the test data directory holds. Opening a directory fails
    with an [IOError], while [os.path.exists] is true for it. *)
Inductive node : Type :=
  | File (data : str)
  | Directory.

(** The exceptions that can travel through [do_GET]. [FileNotFoundError],
    [IsADirectoryError] and [NameTooLongError] (an [OSError] with errno
    [ENAMETOOLONG]) are subclasses of [IOError], and so is
    [requests.exceptions.RequestException]. [ValueError] is what [open]
    raises for a path with an embedded NUL byte, and is no [IOError];
    [OtherError] stands for any other exception that is not one. *)
Inductive exn : Type :=
  | FileNotFoundError
  | IsADirectoryError
  | NameTooLongError
  | ValueError
  | RequestException
  | OtherError.

Definition is_IOError (e : exn) : bool :=
  match e with
  | ValueError | OtherError => false
  | _ => true
  end.

(** A [requests.Response], as far as the handler reads it. *)
Record response : Type := {
  status_code : N;
  reason : str;
  headers : list (str * str);
  content : str
}.

(** The upstream service: what [requests.get] does for a URL. *)
Definition upstream : Type := str -> exn + response.

(** The files below the test data directory, and the URLs fetched so far. *)
Record world : Type := {
  files : gmap str node;
  fetched : list str
}.

(** Computations over the world that may raise. *)
Definition M (A : Type) : Type := world -> world * (exn + A).

Definition ret {A} (a : A) : M A := fun w => (w, inr a).
Definition raise {A} (e : exn) : M A := fun w => (w, inl e).
Definition bind {A B} (c : M A) (k : A -> M B) : M B :=
  fun w =>
    match c w with
    | (w', inl e) => (w', inl e)
    | (w', inr a) => k a w'
    end.

Notation "'let*' x ':=' c 'in' k" := (bind c (fun x => k))
  (at level 10, x name, c at level 100, k at level 200).
Notation "c ';;' k" := (bind c (fun _ => k))
  (at level 100, k at level 200, right associativity).

(** The limits of the file system: the bytes of one name, and the bytes of
    a whole path with its terminating NUL (the values of Linux). *)
Definition NAME_MAX : nat := 255.
Definition PATH_MAX : nat := 4096.

(** [p.split("/")] *)
Fixpoint components (p : str) : list str :=
  match p with
  | [] => [[]]
  | c :: p' =>
      if Ascii.eqb c "/"%char then [] :: components p'
      else match components p' with
           | [] => [[c]]
           | x :: xs => (c :: x) :: xs
           end
  end.

(** The path holds a NUL byte: [open] raises [ValueError] before it goes to
    the operating system. *)
Definition has_nul (p : str) : bool := bool_decide ("000"%char ∈ p).

(** The operating system refuses the path with [ENAMETOOLONG]: the path, in
    the bytes of the file system encoding, is as long as [PATH_MAX], or one
    of its names is longer than [NAME_MAX]. *)
Definition name_too_long (p : str) : bool :=
  (PATH_MAX <=? length (Py.encode_utf8 p))
  || existsb (fun name => NAME_MAX <? length (Py.encode_utf8 name)) (components p).

(** What [open] raises for a path whatever the mode, if anything. *)
Definition path_error (p : str) : option exn :=
  if has_nul p then Some ValueError
  else if name_too_long p then Some NameTooLongError
  else None.

(** [os.path.exists(p)]; false also for a path that cannot exist. *)
Definition os_path_exists (p : str) : M bool :=
  fun w => (w, inr (bool_decide (is_Some (files w !! p)))).

(** [open(p, "rb")] and [open(p, "rb+")] followed by [fd.read()]: neither
    creates nor truncates. A file system has no entry at a path that [open]
    refuses, so that an entry of the store is read without asking
    [path_error]; without an entry, the error is the one of the path, or
    [FileNotFoundError]. *)
Definition open_read (p : str) : M str :=
  fun w =>
    match files w !! p with
    | Some (File data) => (w, inr data)
    | Some Directory => (w, inl IsADirectoryError)
    | None =>
        match path_error p with
        | Some e => (w, inl e)
        | None => (w, inl FileNotFoundError)
        end
    end.

(** [open(p, "wb+")]: truncates the file at once, or creates it when the path
    is one that [open] takes. *)
Definition open_truncate (p : str) : M unit :=
  fun w =>
    match files w !! p with
    | Some Directory => (w, inl IsADirectoryError)
    | Some (File _) =>
        ({| files := <[p := File []]> (files w); fetched := fetched w |}, inr tt)
    | None =>
        match path_error p with
        | Some e => (w, inl e)
        | None =>
            ({| files := <[p := File []]> (files w); fetched := fetched w |}, inr tt)
        end
    end.

(** The stores of a file system: no entry at a path that [open] refuses. *)
Definition realisable (w : world) : Prop :=
  forall p, is_Some (files w !! p) -> path_error p = None.

(** [fd.write(data)] on the file opened at [p]. *)
Definition fd_write (p : str) (data : str) : M unit :=
  fun w =>
    match files w !! p with
    | Some (File old) =>
        ({| files := <[p := File (old ++ data)]> (files w); fetched := fetched w |}, inr tt)
    | _ => (w, inl FileNotFoundError)
    end.

(** [requests.get(url, stream=True)] *)
Definition requests_get (up : upstream) (url : str) : M response :=
  fun w =>
    ({| files := files w; fetched := fetched w ++ [url] |}, up url).

(** ** The handler *)

(** The module globals that [do_GET] reads: the two recording switches and
    the directory of the test module, [os.path.dirname(__file__)]. *)
Record globals : Type := {
  RECORD : bool;
  RECORD_NEW_ONLY : bool;
  module_dir : str
}.

(** The values the switches have in the source. *)
Definition source_globals (dir : str) : globals :=
  {| RECORD := false; RECORD_NEW_ONLY := true; module_dir := dir |}.

Definition BASE_TEST_DATA_PATH (g : globals) : str :=
  Py.os_path_join (Py.os_path_join (module_dir g) (lit "data")) (lit "ogcapi").

Definition ENDPOINT_PATH : str := Py.urlsplit_path TEST_DATA_SOURCE_ENDPOINT.

(** The request handler instance: the request path, the host of
    [self.client_address] (which is what [address_string()] returns) and
    [self.server.server_port]. *)
Record handler : Type := {
  path : str;
  client_host : str;
  server_port : N
}.

Definition address_string (h : handler) : str := client_host h.

(** What the client gets: bytes written to [wfile], the error page of
    [send_error], or nothing because an exception left [do_GET]. *)
Inductive reply : Type :=
  | Wrote (data : str)
  | SendError (code : N) (message explain : str)
  | Raised (e : exn).

Definition request_data_path (g : globals) (h : handler) : str :=
  Py.os_path_join (BASE_TEST_DATA_PATH g) (sanitize_url (path h) ++ lit ".http_data").

Definition is_fake (h : handler) : bool :=
  negb (Py.find (lit "/fakeogcapi") (path h) =? -1)%Z.

(** The URL fetched while recording. *)
Definition upstream_url (h : handler) : str :=
  TEST_DATA_SOURCE_ENDPOINT ++ Py.replace (lit "/fakeogcapi") [] (path h).

Definition local_uri (h : handler) : str :=
  Py.encode_utf8
    (lit "http://" ++ address_string h ++ lit ":" ++ Py.str_of_N (server_port h)
       ++ lit "/fakeogcapi").

(** The body after both replacements. *)
Definition rewritten_content (h : handler) (r : response) : str :=
  let content :=
    Py.replace (Py.encode_utf8 TEST_DATA_SOURCE_ENDPOINT) (local_uri h) (content r) in
  Py.replace (Py.encode_utf8 ENDPOINT_PATH) (local_uri h) content.

Definition CRLF : str := ["013"%char; "010"%char].

(** One turn of the loop over [response.headers.items()]. *)
Definition header_step (content : str) (data : str) (kv : str * str) : str :=
  let '(k, v) := kv in
  if bool_decide (k = lit "Content-Encoding") then data
  else if bool_decide (k = lit "Content-Length") then
    data ++ Py.encode_utf8 k ++ lit ": "
         ++ Py.encode_utf8 (Py.str_of_N (N.of_nat (length content))) ++ CRLF
  else
    data ++ Py.encode_utf8 k ++ lit ": " ++ Py.encode_utf8 v ++ CRLF.

(** The bytes recorded for a response: status line, headers, empty line and
    rewritten body. *)
Definition record_data (h : handler) (r : response) : str :=
  let content := rewritten_content h r in
  let data :=
    lit "HTTP/1.1 " ++ Py.encode_utf8 (Py.str_of_N (status_code r)) ++ lit " "
      ++ Py.encode_utf8 (reason r) ++ CRLF in
  let data := fold_left (header_step content) (headers r) data in
  let data := data ++ CRLF in
  data ++ content.

(** The replacement of the replay branch. *)
Definition current_base (h : handler) : str :=
  Py.encode_utf8
    (lit "http://" ++ address_string h ++ lit ":" ++ Py.str_of_N (server_port h)).

(** The [try] block of [do_GET]: [Some data] when [data] was written to
    [wfile] and the method returned, [None] when control falls through to
    [send_error]. *)
Definition do_GET_try (g : globals) (up : upstream) (h : handler) : M (option str) :=
  let request_data_path := request_data_path g h in
  let is_fake := is_fake h in
  if is_fake && RECORD g then
    let* data :=
      (let* present := os_path_exists request_data_path in
       if RECORD_NEW_ONLY g && present then
         open_read request_data_path
       else
         open_truncate request_data_path ;;
         let* response := requests_get up (upstream_url h) in
         let data := record_data h response in
         fd_write request_data_path data ;;
         ret data) in
    ret (Some data)
  else if negb (Py.find (lit "/fakeogcapi") (path h) =? -1)%Z then
    let* data := open_read request_data_path in
    let response := Re.sub REPLACE_PORT_RE (Re.ReplBytes (current_base h)) data in
    ret (Some response)
  else ret None.

Definition not_found (h : handler) : reply :=
  SendError 404 (lit "File Not Found: " ++ path h)
    (lit "The requested URL was not found on this server.").

(** [do_GET]: [except IOError: pass] lets every [IOError] fall through to the
    404 page; any other exception leaves the method. *)
Definition do_GET (g : globals) (up : upstream) (h : handler) (w : world) : world * reply :=
  match do_GET_try g up h w with
  | (w', inr (Some data)) => (w', Wrote data)
  | (w', inr None) => (w', not_found h)
  | (w', inl e) => if is_IOError e then (w', not_found h) else (w', Raised e)
  end.

(** ** Notions used in the statements *)

(** The members of the reserved set, and what the first loop of
    [sanitize_url] makes of a character. *)
Definition reserved (c : ascii) : bool := bool_decide (c ∈ lit "&#/?=:,()").

Definition mask (c : ascii) : ascii := if reserved c then "_"%char else c.

(** The number of digits a string starts with. *)
Fixpoint leading (s : str) : nat :=
  match s with
  | c :: s' => if Re.is_digit c then S (leading s') else 0
  | [] => 0
  end.

(** What [(\d+\.\d{4})\d+] matches at the start of a string, read off the
    pattern: all leading digits, a point, and all the digits that follow,
    five at least; group 1 ends after the fourth of them. *)
Definition precision_match (s : str) : option Re.found :=
  match leading s with
  | O => None
  | S d =>
      match drop (S d) s with
      | c :: r =>
          if Ascii.eqb "."%char c && (5 <=? leading r)
          then Some (S d + 1 + leading r, Some (0, S d + 5))
          else None
      | [] => None
      end
  end.

(** A string ends open when its last character is a digit, or a point that
    follows a digit: a number starting right after it would continue one that
    the scan has already met. *)
Definition open_end (s : str) : bool :=
  match rev s with
  | [] => false
  | c :: r =>
      Re.is_digit c
      || (Ascii.eqb "."%char c && match r with d :: _ => Re.is_digit d | [] => false end)
  end.

(** The header lines of a record, one per header kept: [Content-Encoding]
    is dropped and [Content-Length] gives the length of the rewritten body. *)
Definition header_line (content : str) (kv : str * str) : str :=
  if bool_decide (kv.1 = lit "Content-Encoding") then []
  else if bool_decide (kv.1 = lit "Content-Length") then
    Py.encode_utf8 kv.1 ++ lit ": "
      ++ Py.encode_utf8 (Py.str_of_N (N.of_nat (length content))) ++ CRLF
  else Py.encode_utf8 kv.1 ++ lit ": " ++ Py.encode_utf8 kv.2 ++ CRLF.

Definition status_line (r : response) : str :=
  lit "HTTP/1.1 " ++ Py.encode_utf8 (Py.str_of_N (status_code r)) ++ lit " "
    ++ Py.encode_utf8 (reason r) ++ CRLF.

(** The length of the longest run of digits in a string. *)
Fixpoint longest_digit_run (s : str) : nat :=
  match s with
  | [] => 0
  | _ :: s' => Nat.max (leading s) (longest_digit_run s')
  end.

(** A point, one digit or more, and another point, somewhere in the string. *)
Fixpoint point_digits_point (s : str) : bool :=
  match s with
  | [] => false
  | c :: s' =>
      (Ascii.eqb "."%char c && (0 <? leading s')
         && Py.starts_with (lit ".") (drop (leading s') s'))
      || point_digits_point s'
  end.

(** Nowhere in the string does the precision pattern match. *)
Fixpoint settled (s : str) : bool :=
  match s with
  | [] => true
  | _ :: s' =>
      match precision_match s with
      | None => settled s'
      | Some _ => false
      end
  end.

(** What follows a run of digits does not complete a match of the precision
    pattern with it. *)
Definition after_ok (s : str) : bool :=
  match s with
  | c :: s' => negb (Ascii.eqb "."%char c && (5 <=? leading s'))
  | [] => true
  end.

(** A fixture read as plain chunks, each followed by a loopback URL:
    [assemble url chunks tail] writes every chunk and, after it, the URL that
    [url] makes of the port recorded with the chunk, then [tail]. *)
Fixpoint assemble (url : str -> str) (chunks : list (str * str)) (tail : str) : str :=
  match chunks with
  | [] => tail
  | (plain, port) :: rest => plain ++ url port ++ assemble url rest tail
  end.

(** A loopback URL as a recording run leaves it in a fixture. *)
Definition recorded_url (port : str) : str := lit "http://127.0.0.1:" ++ port.

(** ** Concrete requests, stores and upstream services for the examples *)

Definition replay_globals : globals := source_globals (lit "/autotest/gdrivers").

Definition record_globals (new_only : bool) : globals :=
  {| RECORD := true; RECORD_NEW_ONLY := new_only; module_dir := lit "/autotest/gdrivers" |}.

Definition collections_handler : handler :=
  {| path := lit "/fakeogcapi/collections";
     client_host := lit "127.0.0.1";
     server_port := 8081 |}.

(** A store holding one fixture, the one of [collections_handler]. *)
Definition world_with (data : str) : world :=
  {| files := {[ request_data_path replay_globals collections_handler := File data ]};
     fetched := [] |}.

Definition collections_response : response :=
  {| status_code := 200;
     reason := lit "OK";
     headers := [(lit "Content-Type", lit "application/json");
                 (lit "Content-Encoding", lit "gzip");
                 (lit "Content-Length", lit "57")];
     content := lit "{'self': 'https://maps.gnosis.earth/ogcapi/collections'}" |}.

(** A synthetic request whose path holds a NUL byte, and one whose key makes
    a file name of more than 255 bytes. *)
Definition nul_handler : handler :=
  {| path := lit "/fakeogcapi/" ++ ["000"%char];
     client_host := lit "127.0.0.1";
     server_port := 8081 |}.

Definition long_handler : handler :=
  {| path := lit "/fakeogcapi/" ++ replicate 300 "a"%char;
     client_host := lit "127.0.0.1";
     server_port := 8081 |}.

(** An upstream service that answers, one whose transport fails, and one
    where the call fails with an exception that is not an [IOError]. *)
Definition live : upstream := fun _ => inr collections_response.
Definition unreachable : upstream := fun _ => inl RequestException.
Definition crashing : upstream := fun _ => inl OtherError.

(** * Properties *)

(** ** [startswith], [replace] and [find] *)

Section PyFacts.

Import Py.

Local Arguments replace : simpl never.

Lemma starts_with_app (p s : str) : starts_with p (p ++ s) = true.
Proof.
  induction p as [|a p IH]; simpl; [done|].
  by rewrite Ascii.eqb_refl.
Qed.

Lemma starts_with_split (p s : str) :
  starts_with p s = true -> s = p ++ drop (length p) s.
Proof.
  revert s. induction p as [|a p IH]; intros [|c s]; simpl; try done.
  destruct (Ascii.eqb_spec a c) as [->|]; [|done].
  intros H. f_equal. by apply IH.
Qed.

Lemma starts_with_length (p s : str) :
  starts_with p s = true -> length p <= length s.
Proof.
  intros H. rewrite (starts_with_split _ _ H), length_app. lia.
Qed.

(** A prefix found in [v ++ s] that is no longer than [v] is found in [v]. *)
Lemma starts_with_app_l (p v s : str) :
  length p <= length v -> starts_with p (v ++ s) = starts_with p v.
Proof.
  revert v. induction p as [|a p IH]; intros [|c v]; simpl; try done; try lia.
  intros H. destruct (Ascii.eqb a c); [|done]. apply IH. lia.
Qed.

(** A character that [p] does not hold cannot be covered by a match of [p]. *)
Lemma starts_with_stop (p v s : str) (c : ascii) :
  c ∉ p -> starts_with p (v ++ c :: s) = true -> length p <= length v.
Proof.
  revert v. induction p as [|a p IH]; intros v Hc; simpl; [lia|].
  destruct v as [|b v]; simpl.
  - destruct (Ascii.eqb_spec a c) as [->|]; [|done].
    exfalso. apply Hc. by left.
  - destruct (Ascii.eqb a b); [|done]. intros H.
    assert (length p <= length v); [|lia].
    apply IH; [|done]. intros Hin. apply Hc. by right.
Qed.

Lemma replace_go_skip (old new : str) (k : nat) (s : str) :
  replace_go old new k s = replace_go old new 0 (drop k s).
Proof.
  revert k. induction s as [|c s IH]; intros [|k]; simpl; [done..|].
  apply IH.
Qed.

(** The equations of the scan. *)
Lemma replace_nil (o : ascii) (old new : str) : replace (o :: old) new [] = [].
Proof. done. Qed.

Lemma replace_hit (o : ascii) (old new s : str) :
  starts_with (o :: old) s = true ->
  replace (o :: old) new s = new ++ replace (o :: old) new (drop (length (o :: old)) s).
Proof.
  intros H. destruct s as [|c s]; [done|].
  unfold replace. cbn [replace_go]. rewrite H. f_equal.
  rewrite replace_go_skip. f_equal.
  change (drop (length (o :: old)) (c :: s)) with (drop (length old) s).
  f_equal. simpl. lia.
Qed.

Lemma replace_miss (o : ascii) (old new : str) (c : ascii) (s : str) :
  starts_with (o :: old) (c :: s) = false ->
  replace (o :: old) new (c :: s) = c :: replace (o :: old) new s.
Proof.
  intros H. unfold replace. cbn [replace_go]. by rewrite H.
Qed.

(** Replacing a single character is a map. *)
Lemma replace_char (a u : ascii) (s : str) :
  replace [a] [u] s = (λ c, if Ascii.eqb a c then u else c) <$> s.
Proof.
  induction s as [|c s IH]; [done|].
  destruct (Ascii.eqb a c) eqn:E.
  - rewrite replace_hit by (simpl; by rewrite E).
    change (drop (length [a]) (c :: s)) with s.
    rewrite IH, fmap_cons, E. done.
  - rewrite replace_miss by (simpl; by rewrite E).
    rewrite IH, fmap_cons, E. done.
Qed.

(** Characters that [old] does not hold are copied, and cut the scan in
    independent parts. *)
Lemma replace_copy (o : ascii) (old new n s : str) :
  Forall (λ c, c ∉ o :: old) n ->
  replace (o :: old) new (n ++ s) = n ++ replace (o :: old) new s.
Proof.
  induction 1 as [|c n Hc _ IH]; [done|].
  simpl. rewrite replace_miss.
  - by rewrite IH.
  - simpl. destruct (Ascii.eqb_spec o c) as [->|]; [|done].
    exfalso. apply Hc. by left.
Qed.

Lemma replace_cut (o : ascii) (old new a s : str) (c : ascii) :
  c ∉ o :: old ->
  replace (o :: old) new (a ++ c :: s)
  = replace (o :: old) new a ++ c :: replace (o :: old) new s.
Proof.
  intros Hc. remember (length a) as n eqn:Hn.
  revert a Hn. induction n as [n IH] using lt_wf_ind. intros a ->.
  destruct a as [|b a].
  - simpl. apply (replace_copy o old new [c] s). by constructor.
  - destruct (starts_with (o :: old) ((b :: a) ++ c :: s)) eqn:E.
    + pose proof (starts_with_stop _ _ _ _ Hc E) as Hlen.
      rewrite replace_hit by done.
      rewrite starts_with_app_l in E by done.
      rewrite (replace_hit _ _ _ (b :: a)) by done.
      rewrite drop_app_le by done. rewrite <- app_assoc. f_equal.
      eapply IH; [|done]. rewrite length_drop. simpl in *. lia.
    + assert (starts_with (o :: old) (b :: a) = false) as E'.
      { destruct (starts_with (o :: old) (b :: a)) eqn:E'; [|done].
        rewrite <- E. symmetry. rewrite starts_with_app_l; [done|].
        by apply starts_with_length. }
      simpl. rewrite replace_miss by done.
      rewrite (replace_miss _ _ _ b a) by done. simpl. f_equal.
      eapply IH; [|done]. simpl. lia.
Qed.

Lemma replace_cut_many (o : ascii) (old new a n s : str) :
  n ≠ [] -> Forall (λ c, c ∉ o :: old) n ->
  replace (o :: old) new (a ++ n ++ s)
  = replace (o :: old) new a ++ n ++ replace (o :: old) new s.
Proof.
  intros Hn Hall. destruct n as [|c n]; [done|].
  apply Forall_cons in Hall as [Hc Hall].
  simpl. rewrite replace_cut by done. by rewrite replace_copy.
Qed.

(** [find] gives -1 exactly when no suffix starts with the needle. *)
Lemma find_from_ge (sub s : str) (i : Z) :
  (find_from sub s i = -1 \/ i <= find_from sub s i)%Z.
Proof.
  revert i. induction s as [|c s IH]; intros i; simpl.
  - destruct (starts_with sub []); lia.
  - destruct (starts_with sub (c :: s)); [lia|].
    destruct (IH (i + 1)%Z); lia.
Qed.

Lemma find_from_absent (sub s : str) (i : Z) :
  (0 <= i)%Z ->
  find_from sub s i = (-1)%Z <-> forall k, starts_with sub (drop k s) = false.
Proof.
  revert i. induction s as [|c s IH]; intros i Hi; simpl.
  - destruct (starts_with sub []) eqn:E.
    + split; [lia|]. intros H. specialize (H 0). simpl in H. congruence.
    + split; [|done]. intros _ k. by rewrite drop_nil.
  - destruct (starts_with sub (c :: s)) eqn:E.
    + split; [lia|]. intros H. specialize (H 0). rewrite drop_0 in H. congruence.
    + rewrite IH by lia. split.
      * intros H [|k]; [done|]. apply H.
      * intros H k. apply (H (S k)).
Qed.

Lemma find_absent (sub s : str) :
  find sub s = (-1)%Z <-> forall k, starts_with sub (drop k s) = false.
Proof. by apply find_from_absent. Qed.

Lemma find_present (sub a s : str) : find sub (a ++ sub ++ s) ≠ (-1)%Z.
Proof.
  rewrite find_absent. intros H. specialize (H (length a)).
  rewrite drop_app_length in H. by rewrite starts_with_app in H.
Qed.

End PyFacts.

(** ** The matcher on the precision pattern *)

Section ReFacts.

Import Re.

Local Arguments sub : simpl never.

Lemma digit_not_point (c : ascii) : is_digit c = true -> Ascii.eqb "."%char c = false.
Proof. destruct (Ascii.eqb_spec "."%char c) as [<-|]; done. Qed.

Lemma leading_le (s : str) : leading s <= length s.
Proof. induction s as [|c s IH]; simpl; [lia|]. destruct (is_digit c); simpl; lia. Qed.

Lemma leading_take (s : str) : Forall (λ c, is_digit c = true) (take (leading s) s).
Proof.
  induction s as [|c s IH]; simpl; [constructor|].
  destruct (is_digit c) eqn:E; simpl; by constructor.
Qed.

Lemma leading_drop (n : nat) (s : str) :
  n <= leading s -> leading (drop n s) = leading s - n.
Proof.
  revert s. induction n as [|n IH]; intros s H; [rewrite drop_0; lia|].
  destruct s as [|c s]; simpl in *; [done|].
  destruct (is_digit c); [|lia]. apply IH. lia.
Qed.

Lemma leading_stop (s : str) : leading (drop (leading s) s) = 0.
Proof. rewrite leading_drop by done. lia. Qed.

Lemma leading_app (d s : str) :
  Forall (λ c, is_digit c = true) d -> leading (d ++ s) = length d + leading s.
Proof. induction 1 as [|c d Hc _ IH]; simpl; [done|]. by rewrite Hc, IH. Qed.

(** Digits not running to the end of [v] are not prolonged by what follows. *)
Lemma leading_app_lt (v x : str) :
  leading v < length v -> leading (v ++ x) = leading v.
Proof.
  induction v as [|c v IH]; simpl; [lia|].
  destruct (is_digit c); [|done]. intros H. f_equal. apply IH. lia.
Qed.

(** Greedy [\d+] before something that no digit can start: only the longest
    run is left to try. *)
Lemma plus_go_stop (k : str -> nat -> option found) (s : str) (pos : nat) :
  (forall c s' p, is_digit c = true -> k (c :: s') p = None) ->
  plus_go CDigit k s pos
  = match leading s with
    | O => None
    | S d => k (drop (S d) s) (pos + S d)
    end.
Proof.
  intros Hk. revert pos. induction s as [|c s IH]; intros pos; [done|].
  cbn [plus_go leading cmatch]. destruct (is_digit c) eqn:E; [|done].
  rewrite IH. destruct (leading s) as [|d] eqn:L.
  - rewrite Nat.add_1_r. done.
  - cbn [drop]. replace (S pos + S d) with (pos + S (S d)) by lia.
    destruct (k (drop (S d) s) (pos + S (S d))); [done|].
    destruct s as [|c' s]; [done|]. cbn [leading] in L.
    destruct (is_digit c') eqn:E'; [|done]. by apply Hk.
Qed.

(** Greedy [\d+] at the end of the pattern takes every digit. *)
Lemma plus_go_all (f : nat -> found) (s : str) (pos : nat) :
  plus_go CDigit (λ _ p, Some (f p)) s pos
  = match leading s with
    | O => None
    | S d => Some (f (pos + S d))
    end.
Proof.
  revert pos. induction s as [|c s IH]; intros pos; [done|].
  cbn [plus_go leading cmatch]. destruct (is_digit c) eqn:E; [|done].
  rewrite IH. destruct (leading s) as [|d] eqn:L.
  - by rewrite Nat.add_1_r.
  - by replace (S pos + S d) with (pos + S (S d)) by lia.
Qed.

Lemma rep_go_digits (n : nat) (k : str -> nat -> option found) (s : str) (pos : nat) :
  rep_go CDigit n k s pos
  = if n <=? leading s then k (drop n s) (pos + n) else None.
Proof.
  revert s pos. induction n as [|n IH]; intros s pos.
  - cbn [rep_go]. by rewrite drop_0, Nat.add_0_r.
  - destruct s as [|c s]; [done|].
    cbn [rep_go leading cmatch]. destruct (is_digit c) eqn:E; [|done].
    rewrite IH. cbn [drop]. replace (S pos + n) with (pos + S n) by lia. done.
Qed.

(** The backtracking matcher finds on [REPLACE_PRECISION_RE] what the pattern
    reads as. *)
Lemma re_match_precision (s : str) :
  re_match REPLACE_PRECISION_RE s = precision_match s.
Proof.
  unfold re_match, REPLACE_PRECISION_RE, precision_match. cbn [run].
  rewrite plus_go_stop.
  - destruct (leading s) as [|d]; [done|].
    destruct (drop (S d) s) as [|c r]; [done|].
    cbn [cmatch]. destruct (Ascii.eqb "."%char c); [|done].
    rewrite rep_go_digits. cbn [andb].
    destruct (Nat.leb_spec 5 (leading r)) as [H5|H5].
    + destruct (Nat.leb_spec 4 (leading r)) as [_|]; [|lia].
      rewrite plus_go_all, leading_drop by lia.
      destruct (leading r - 4) as [|m] eqn:Hm; [lia|].
      f_equal. f_equal; [lia|]. do 2 f_equal. lia.
    + destruct (Nat.leb_spec 4 (leading r)) as [H4|]; [|done].
      rewrite plus_go_all, leading_drop by lia.
      by replace (leading r - 4) with 0 by lia.
  - intros c s' p Hc. cbn [cmatch]. by rewrite digit_not_point.
Qed.

Lemma precision_match_bounds (s : str) (n : nat) (g : span) :
  precision_match s = Some (n, g) ->
  exists d f, n = S d + 1 + f /\ g = Some (0, S d + 5) /\ 5 <= f /\ n <= length s
    /\ leading s = S d /\ leading (drop (S d + 1) s) = f.
Proof.
  unfold precision_match. destruct (leading s) as [|d] eqn:L; [done|].
  destruct (drop (S d) s) as [|c r] eqn:D; [done|].
  destruct (Ascii.eqb "."%char c); [|done]. cbn [andb].
  destruct (Nat.leb_spec 5 (leading r)) as [H5|]; [|done].
  intros [= <- <-]. exists d, (leading r). repeat split; try done.
  - pose proof (leading_le r). pose proof (f_equal length D) as HD.
    rewrite length_drop in HD. simpl in HD. lia.
  - rewrite <- drop_drop, D. done.
Qed.

(** ** The equations of [sub] *)

Lemma sub_go_skip (r : regex) (rp : repl) (k : nat) (s : str) :
  sub_go r rp k s = sub_go r rp 0 (drop k s).
Proof.
  revert k. induction s as [|c s IH]; intros [|k]; simpl; [done..|].
  apply IH.
Qed.

Lemma sub_miss (r : regex) (rp : repl) (c : ascii) (s : str) :
  re_match r (c :: s) = None -> sub r rp (c :: s) = c :: sub r rp s.
Proof. intros H. unfold sub. cbn [sub_go]. by rewrite H. Qed.

Lemma sub_hit (r : regex) (rp : repl) (c : ascii) (s : str) (n : nat) (g : span) :
  re_match r (c :: s) = Some (S n, g) ->
  sub r rp (c :: s) = expand rp (c :: s) (S n, g) ++ sub r rp (drop (S n) (c :: s)).
Proof.
  intros H. unfold sub. cbn [sub_go]. rewrite H. by rewrite sub_go_skip.
Qed.

Lemma sub_precision_nil : sub REPLACE_PRECISION_RE ReplGroup1 [] = [].
Proof. done. Qed.

Lemma sub_precision_miss (c : ascii) (s : str) :
  precision_match (c :: s) = None ->
  sub REPLACE_PRECISION_RE ReplGroup1 (c :: s)
  = c :: sub REPLACE_PRECISION_RE ReplGroup1 s.
Proof. intros H. apply sub_miss. by rewrite re_match_precision. Qed.

Lemma sub_precision_hit (s : str) (n j : nat) :
  precision_match s = Some (n, Some (0, j)) ->
  sub REPLACE_PRECISION_RE ReplGroup1 s
  = take j s ++ sub REPLACE_PRECISION_RE ReplGroup1 (drop n s).
Proof.
  intros H. destruct (precision_match_bounds _ _ _ H) as (d & f & -> & _).
  destruct s as [|c s]; [done|].
  rewrite (sub_hit _ _ _ _ (d + 1 + f) (Some (0, j))).
  - cbn [expand snd]. by rewrite Nat.sub_0_r, drop_0.
  - by rewrite re_match_precision, H.
Qed.

End ReFacts.

(** ** The precision step on its own *)

Section PrecisionFacts.

Import Re.

Local Arguments sub : simpl never.
Local Abbreviation truncate := (sub REPLACE_PRECISION_RE ReplGroup1).

Lemma precision_match_not_digit (c : ascii) (s : str) :
  is_digit c = false -> precision_match (c :: s) = None.
Proof. intros H. unfold precision_match. cbn [leading]. by rewrite H. Qed.

(** Characters that are not digits are copied. *)
Lemma truncate_copy (n s : str) :
  Forall (λ c, is_digit c = false) n -> truncate (n ++ s) = n ++ truncate s.
Proof.
  induction 1 as [|c n Hc _ IH]; [done|].
  rewrite <- app_comm_cons, sub_precision_miss by by apply precision_match_not_digit.
  by rewrite IH.
Qed.

Lemma leading_app_stop (a : str) (c : ascii) (s : str) :
  is_digit c = false -> leading (a ++ c :: s) <= length a.
Proof.
  intros Hc. induction a as [|b a IH]; simpl; [by rewrite Hc|].
  destruct (is_digit b); lia.
Qed.

Lemma open_end_snoc (v : str) (c : ascii) :
  open_end (v ++ [c]) = false -> is_digit c = false.
Proof.
  unfold open_end. rewrite rev_app_distr. simpl.
  by destruct (is_digit c).
Qed.

Lemma open_end_leading (v : str) :
  v ≠ [] -> open_end v = false -> leading v < length v.
Proof.
  destruct v as [|c v] using rev_ind; [done|]. intros _ H.
  apply open_end_snoc in H.
  pose proof (leading_app_stop v c [] H). rewrite length_app. simpl. lia.
Qed.

Lemma open_end_app (a s : str) : open_end s = true -> open_end (a ++ s) = true.
Proof.
  unfold open_end. rewrite rev_app_distr.
  destruct (rev s) as [|c [|d r]]; [done| |done].
  simpl. rewrite andb_false_r, orb_false_r. by intros ->.
Qed.

Lemma open_end_drop (k : nat) (v : str) :
  open_end v = false -> open_end (drop k v) = false.
Proof.
  intros H. destruct (open_end (drop k v)) eqn:E; [|done].
  apply (open_end_app (take k v)) in E. rewrite take_drop in E. congruence.
Qed.

Lemma open_end_digit_point (d : str) :
  d ≠ [] -> Forall (λ c, is_digit c = true) d -> open_end (d ++ ["."%char]) = true.
Proof.
  intros Hd Hall. unfold open_end. rewrite rev_app_distr. simpl.
  destruct (rev d) as [|c r] eqn:R.
  - apply (f_equal (@rev ascii)) in R. rewrite rev_involutive in R. done.
  - assert (In c d) as Hin by (apply in_rev; rewrite R; by left).
    rewrite Forall_forall in Hall. rewrite Hall; [done|].
    by apply list_elem_of_In.
Qed.

(** A match that starts in a string with a closed end lies inside it. *)
Lemma precision_match_closed (v x : str) :
  v ≠ [] -> open_end v = false -> precision_match (v ++ x) = precision_match v.
Proof.
  intros Hv Ho. pose proof (open_end_leading v Hv Ho) as Hl.
  unfold precision_match. rewrite leading_app_lt by done.
  destruct (leading v) as [|d] eqn:L; [done|].
  rewrite drop_app_le by lia.
  destruct (drop (S d) v) as [|c r] eqn:D.
  { apply (f_equal length) in D. rewrite length_drop in D. simpl in D. lia. }
  rewrite <- app_comm_cons.
  destruct (Ascii.eqb_spec "."%char c) as [<-|]; [|done]. cbn [andb].
  destruct r as [|c' r].
  - exfalso. rewrite <- (take_drop (S d) v), D in Ho.
    rewrite open_end_digit_point in Ho; [done| |].
    + intros E. apply (f_equal length) in E. rewrite length_take in E.
      cbn [length] in E. lia.
    + rewrite <- L. apply leading_take.
  - assert (open_end (c' :: r) = false) as Hr.
    { replace (c' :: r) with (drop (S (S d)) v); [by apply open_end_drop|].
      change (S (S d)) with (1 + S d). rewrite Nat.add_comm, <- drop_drop, D. done. }
    by rewrite leading_app_lt by by apply open_end_leading.
Qed.

(** The scan of a string with a closed end does not depend on what follows. *)
Lemma truncate_app (p x : str) :
  open_end p = false -> truncate (p ++ x) = truncate p ++ truncate x.
Proof.
  remember (length p) as n eqn:Hn. revert p Hn.
  induction n as [n IH] using lt_wf_ind. intros p -> Ho.
  destruct p as [|c p]; [done|].
  pose proof (precision_match_closed (c :: p) x ltac:(done) Ho) as Hm.
  destruct (precision_match (c :: p)) as [[m g]|] eqn:E.
  - destruct (precision_match_bounds _ _ _ E) as (d & f & -> & -> & Hf & Hlen & _).
    rewrite (sub_precision_hit _ _ _ Hm), (sub_precision_hit _ _ _ E).
    rewrite take_app_le, drop_app_le by lia. rewrite <- app_assoc. f_equal.
    eapply IH; [|done|by apply open_end_drop].
    rewrite length_drop. cbn [length] in *. lia.
  - rewrite <- app_comm_cons, sub_precision_miss by done.
    rewrite sub_precision_miss by done. simpl. f_equal.
    eapply IH; [|done|by apply (open_end_drop 1) in Ho].
    simpl. lia.
Qed.

(** A decimal number at the start of the scan: all its digits before the
    point are kept, and the first four after it. *)
Lemma truncate_number (int frac post : str) :
  int ≠ [] ->
  Forall (λ c, is_digit c = true) int ->
  Forall (λ c, is_digit c = true) frac ->
  4 < length frac ->
  leading post = 0 ->
  truncate (int ++ "."%char :: frac ++ post)
  = int ++ "."%char :: take 4 frac ++ truncate post.
Proof.
  intros Hi Hdi Hdf Hlen Hpost.
  assert (precision_match (int ++ "."%char :: frac ++ post)
          = Some (length int + 1 + length frac, Some (0, length int + 5))) as Hm.
  { unfold precision_match. rewrite leading_app by done.
    cbn [leading is_digit]. change (is_digit "."%char) with false.
    rewrite Nat.add_0_r. destruct int as [|c int]; [done|].
    cbn [length]. rewrite drop_app_length'; [|done].
    rewrite leading_app, Hpost, Nat.add_0_r by done. cbn [Ascii.eqb andb].
    change (Ascii.eqb "."%char "."%char) with true. cbn [andb].
    destruct (Nat.leb_spec 5 (length frac)); [done|lia]. }
  rewrite (sub_precision_hit _ _ _ Hm).
  rewrite take_app_ge, drop_app_ge by lia.
  replace (length int + 5 - length int) with 5 by lia.
  replace (length int + 1 + length frac - length int) with (S (length frac)) by lia.
  cbn [take drop]. rewrite take_app_le, drop_app_length by lia.
  by rewrite <- app_assoc.
Qed.

End PrecisionFacts.

(** ** The three steps of [sanitize_url] *)

Section SanitizeFacts.

Import Py Re.

Local Arguments sub : simpl never.
Local Arguments replace : simpl never.
Local Abbreviation truncate := (sub REPLACE_PRECISION_RE ReplGroup1).
Local Abbreviation unmark := (replace (lit "_fakeogcapi") (lit "request")).

(** Facts on single characters are settled by running through all of them. *)
Local Ltac each_char c :=
  destruct c as [[] [] [] [] [] [] [] []]; vm_compute; try done.

Local Abbreviation swap a := (λ c : ascii, if Ascii.eqb a%char c then "_"%char else c).

Lemma mask_chain (c : ascii) :
  swap ")" (swap "(" (swap "," (swap ":" (swap "=" (swap "?" (swap "/"
    (swap "#" (swap "&" c)))))))) = mask c.
Proof. each_char c. Qed.

Lemma mask_loop (url : str) :
  fold_left (λ text c, replace [c] (lit "_") text) (lit "&#/?=:,()") url
  = mask <$> url.
Proof.
  change (lit "_") with ["_"%char]. unfold lit. cbn [list_ascii_of_string fold_left].
  rewrite !replace_char.
  induction url as [|c url IH]; [done|].
  rewrite !fmap_cons, IH. f_equal. apply mask_chain.
Qed.

Lemma sanitize_url_steps (url : str) :
  sanitize_url url = unmark (truncate (mask <$> url)).
Proof. unfold sanitize_url. cbv zeta. by rewrite mask_loop. Qed.

Lemma mask_not_reserved (c : ascii) : reserved (mask c) = false.
Proof. each_char c. Qed.

Lemma mask_unreserved (c : ascii) : reserved c = false -> mask c = c.
Proof. unfold mask. by intros ->. Qed.

Lemma digit_unreserved (c : ascii) : is_digit c = true -> reserved c = false.
Proof. each_char c. Qed.

Lemma mask_is_digit (c : ascii) : is_digit (mask c) = is_digit c.
Proof. each_char c. Qed.

Lemma mask_is_point (c : ascii) : Ascii.eqb "." (mask c) = Ascii.eqb "." c.
Proof. each_char c. Qed.

Lemma mask_id (s : str) : Forall (λ c, reserved c = false) s -> mask <$> s = s.
Proof.
  induction 1 as [|c s Hc _ IH]; [done|].
  by rewrite fmap_cons, IH, mask_unreserved.
Qed.

Lemma mask_digits (s : str) : Forall (λ c, is_digit c = true) s -> mask <$> s = s.
Proof.
  intros H. apply mask_id. eapply Forall_impl; [done|].
  intros c. apply digit_unreserved.
Qed.

Lemma rev_fmap {A B} (f : A -> B) (l : list A) : rev (f <$> l) = f <$> rev l.
Proof.
  induction l as [|a l IH]; [done|].
  rewrite fmap_cons. simpl. by rewrite IH, fmap_app.
Qed.

Lemma open_end_mask (s : str) : open_end (mask <$> s) = open_end s.
Proof.
  unfold open_end. rewrite rev_fmap.
  destruct (rev s) as [|c [|d r]]; [done|..]; rewrite !fmap_cons;
    by rewrite ?mask_is_digit, ?mask_is_point.
Qed.

Lemma leading_mask (s : str) : leading (mask <$> s) = leading s.
Proof.
  induction s as [|c s IH]; [done|].
  rewrite fmap_cons. cbn [leading]. by rewrite mask_is_digit, IH.
Qed.

(** No step brings in a character that was not there, but for the letters of
    [request]. *)
Lemma sub_go_Forall (P : ascii -> Prop) (r : regex) (k : nat) (s : str) :
  Forall P s -> Forall P (sub_go r ReplGroup1 k s).
Proof.
  intros H. revert k. induction H as [|c s Hc Hs IH]; intros k.
  - cbn [sub_go]. destruct (re_match r []) as [[n [[i j]|]]|]; cbn [expand snd];
      try constructor. rewrite drop_nil, take_nil. constructor.
  - cbn [sub_go]. destruct k as [|k]; [|done].
    assert (forall mt, Forall P (expand ReplGroup1 (c :: s) mt)) as He.
    { intros [n [[i j]|]]; cbn [expand snd]; [|constructor].
      apply Forall_take, Forall_drop. by constructor. }
    destruct (re_match r (c :: s)) as [[[|n] g]|].
    + apply Forall_app. split; [done|]. by constructor.
    + apply Forall_app. split; done.
    + by constructor.
Qed.

Lemma replace_go_Forall (P : ascii -> Prop) (old new : str) (k : nat) (s : str) :
  Forall P new -> Forall P s -> Forall P (replace_go old new k s).
Proof.
  intros Hn H. revert k. induction H as [|c s Hc Hs IH]; intros k; [constructor|].
  cbn [replace_go]. destruct k as [|k]; [|done].
  destruct (starts_with old (c :: s)).
  - apply Forall_app. split; done.
  - by constructor.
Qed.

Lemma sanitize_url_unreserved (url : str) :
  Forall (λ c, reserved c = false) (sanitize_url url).
Proof.
  rewrite sanitize_url_steps. apply replace_go_Forall.
  - by repeat constructor.
  - apply sub_go_Forall. apply Forall_fmap, Forall_true. intros c.
    apply mask_not_reserved.
Qed.

Lemma digit_not_in_marker (c : ascii) :
  is_digit c = true -> c ∉ lit "_fakeogcapi".
Proof.
  intros H Hin. unfold lit in Hin. cbn [list_ascii_of_string] in Hin.
  repeat (apply elem_of_cons in Hin as [->|Hin]; [done|]).
  by apply elem_of_nil in Hin.
Qed.

Lemma point_not_in_marker : "."%char ∉ lit "_fakeogcapi".
Proof.
  intros Hin. unfold lit in Hin. cbn [list_ascii_of_string] in Hin.
  repeat (apply elem_of_cons in Hin as [?|Hin]; [done|]).
  by apply elem_of_nil in Hin.
Qed.

(** The marker at the start of a path: it becomes [request], and the rest of
    the path is keyed on its own. *)
Lemma sanitize_url_marker (rest : str) :
  sanitize_url (lit "/fakeogcapi" ++ rest) = lit "request" ++ sanitize_url rest.
Proof.
  rewrite !sanitize_url_steps, fmap_app.
  change (mask <$> lit "/fakeogcapi") with (lit "_fakeogcapi").
  rewrite truncate_copy by by repeat constructor.
  change (lit "_fakeogcapi") with ("_"%char :: lit "fakeogcapi").
  rewrite replace_hit by apply starts_with_app.
  by rewrite drop_app_length.
Qed.

(** A decimal number in a path, with more than four decimals and not
    reached from an earlier number: the key holds it cut after the fourth. *)
Lemma sanitize_url_number (pre int frac post : str) :
  int ≠ [] ->
  Forall (λ c, is_digit c = true) int ->
  Forall (λ c, is_digit c = true) frac ->
  4 < length frac ->
  open_end pre = false ->
  leading post = 0 ->
  sanitize_url (pre ++ int ++ lit "." ++ frac ++ post)
  = sanitize_url pre ++ int ++ lit "." ++ take 4 frac ++ sanitize_url post.
Proof.
  intros Hi Hdi Hdf Hlen Hpre Hpost.
  rewrite !sanitize_url_steps, !fmap_app.
  rewrite (mask_digits int), (mask_digits frac) by done.
  change (mask <$> lit ".") with (lit ".").
  rewrite truncate_app by by rewrite open_end_mask.
  change (lit "." ++ frac ++ (mask <$> post)) with ("."%char :: frac ++ (mask <$> post)).
  rewrite truncate_number by (by rewrite ?leading_mask).
  change (lit "_fakeogcapi") with ("_"%char :: lit "fakeogcapi").
  change (int ++ "."%char :: take 4 frac ++ truncate (mask <$> post))
    with (int ++ lit "." ++ take 4 frac ++ truncate (mask <$> post)).
  rewrite !(app_assoc int), !(app_assoc (int ++ lit ".")).
  apply replace_cut_many.
  - by destruct int.
  - rewrite !Forall_app. repeat split.
    + eapply Forall_impl; [exact Hdi|]. intros c. apply digit_not_in_marker.
    + constructor; [apply point_not_in_marker|constructor].
    + apply Forall_take. eapply Forall_impl; [exact Hdf|].
      intros c. apply digit_not_in_marker.
Qed.

End SanitizeFacts.

(** ** The branches of [do_GET] *)

Section HandlerFacts.

Variables (g : globals) (up : upstream) (h : handler) (w : world).

Local Abbreviation p := (request_data_path g h).

Lemma is_fake_find : is_fake h = negb (Py.find (lit "/fakeogcapi") (path h) =? -1)%Z.
Proof. done. Qed.

(** Replay: the file is read and nothing else happens. *)
Lemma do_GET_replay :
  RECORD g = false ->
  do_GET g up h w
  = (w, if is_fake h then
          match files w !! p with
          | Some (File data) =>
              Wrote (Re.sub REPLACE_PORT_RE (Re.ReplBytes (current_base h)) data)
          | Some Directory => not_found h
          | None => if has_nul p then Raised ValueError else not_found h
          end
        else not_found h).
Proof.
  intros HR. unfold do_GET, do_GET_try. rewrite HR, andb_false_r.
  rewrite <- is_fake_find. destruct (is_fake h); [|done].
  unfold bind, open_read, ret, path_error.
  destruct (files w !! p) as [[data|]|]; [done..|].
  destruct (has_nul p); [done|]. by destruct (name_too_long p).
Qed.

(** Recording, the record is there and only new ones are fetched. *)
Lemma do_GET_record_skip (data : str) :
  RECORD g = true -> RECORD_NEW_ONLY g = true -> is_fake h = true ->
  files w !! p = Some (File data) ->
  do_GET g up h w = (w, Wrote data).
Proof.
  intros HR HN Hf Hp. unfold do_GET, do_GET_try. rewrite HR, HN, Hf.
  cbn [andb]. unfold bind, os_path_exists, open_read, ret. rewrite Hp.
  rewrite bool_decide_eq_true_2 by by eexists. cbn [andb]. by rewrite Hp.
Qed.

(** Recording, the fetch is made: the file is opened for writing first. *)
Lemma do_GET_record_fetch :
  RECORD g = true -> is_fake h = true ->
  RECORD_NEW_ONLY g = false \/ files w !! p = None ->
  files w !! p ≠ Some Directory ->
  (files w !! p = None -> path_error p = None) ->
  do_GET g up h w
  = match up (upstream_url h) with
    | inr r =>
        ({| files := <[p := File (record_data h r)]> (files w);
            fetched := fetched w ++ [upstream_url h] |},
         Wrote (record_data h r))
    | inl e =>
        ({| files := <[p := File []]> (files w);
            fetched := fetched w ++ [upstream_url h] |},
         if is_IOError e then not_found h else Raised e)
    end.
Proof.
  intros HR Hf Hnew Hdir Hok. unfold do_GET, do_GET_try. rewrite HR, Hf.
  cbn [andb]. unfold bind at 1 2 3. unfold os_path_exists.
  assert (RECORD_NEW_ONLY g && bool_decide (is_Some (files w !! p)) = false) as ->.
  { destruct Hnew as [->| ->]; [done|].
    rewrite bool_decide_eq_false_2; [by rewrite andb_false_r|].
    by intros [? ?]. }
  unfold bind, open_truncate, requests_get, fd_write, ret.
  assert (match files w !! p with
          | Some (File _) =>
              ({| files := <[p := File []]> (files w); fetched := fetched w |}, inr ())
          | Some Directory => (w, inl IsADirectoryError)
          | None =>
              match path_error p with
              | Some e => (w, inl e)
              | None =>
                  ({| files := <[p := File []]> (files w); fetched := fetched w |},
                   inr ())
              end
          end
          = ({| files := <[p := File []]> (files w); fetched := fetched w |},
             inr ())) as ->.
  { destruct (files w !! p) as [[?|]|]; [done..|]. by rewrite Hok. }
  cbn [files fetched]. destruct (up (upstream_url h)) as [e|r].
  { by destruct (is_IOError e). }
  rewrite lookup_insert_eq. cbn [app]. by rewrite insert_insert_eq.
Qed.

(** Recording, no entry and a path that [open] refuses: nothing is created
    and nothing is fetched. *)
Lemma do_GET_record_refused (e : exn) :
  RECORD g = true -> is_fake h = true ->
  files w !! p = None -> path_error p = Some e ->
  do_GET g up h w = (w, if is_IOError e then not_found h else Raised e).
Proof.
  intros HR Hf Hp He. unfold do_GET, do_GET_try. rewrite HR, Hf.
  cbn [andb]. unfold bind, os_path_exists, open_truncate. rewrite Hp.
  rewrite bool_decide_eq_false_2 by by intros [? ?].
  rewrite andb_false_r, He, Hp. by destruct (is_IOError e).
Qed.

(** On the store of a file system, opening is the same with the path looked
    at first, as [open] does. *)
Lemma open_read_path_first (q : str) :
  realisable w ->
  open_read q w
  = match path_error q with
    | Some e => (w, inl e)
    | None =>
        match files w !! q with
        | Some (File data) => (w, inr data)
        | Some Directory => (w, inl IsADirectoryError)
        | None => (w, inl FileNotFoundError)
        end
    end.
Proof.
  intros Hw. unfold open_read.
  destruct (files w !! q) as [n|] eqn:Hq.
  - rewrite (Hw q) by (rewrite Hq; by eexists). done.
  - by destruct (path_error q).
Qed.

Lemma open_truncate_path_first (q : str) :
  realisable w ->
  open_truncate q w
  = match path_error q with
    | Some e => (w, inl e)
    | None =>
        match files w !! q with
        | Some Directory => (w, inl IsADirectoryError)
        | _ => ({| files := <[q := File []]> (files w); fetched := fetched w |}, inr tt)
        end
    end.
Proof.
  intros Hw. unfold open_truncate.
  destruct (files w !! q) as [n|] eqn:Hq.
  - rewrite (Hw q) by (rewrite Hq; by eexists). by destruct n.
  - by destruct (path_error q).
Qed.

End HandlerFacts.

(** The loop over the headers appends one line per header. *)
Lemma header_loop (content : str) (hs : list (str * str)) (data : str) :
  fold_left (header_step content) hs data
  = data ++ flat_map (header_line content) hs.
Proof.
  revert data. induction hs as [|[k v] hs IH]; intros data; cbn [fold_left flat_map].
  - by rewrite app_nil_r.
  - rewrite IH. unfold header_step, header_line. cbn [fst snd].
    repeat case_bool_decide; by rewrite <- ?app_assoc.
Qed.

Lemma record_data_layout (h : handler) (r : response) :
  record_data h r
  = status_line r ++ flat_map (header_line (rewritten_content h r)) (headers r)
      ++ CRLF ++ rewritten_content h r.
Proof.
  unfold record_data, status_line. cbv zeta. rewrite header_loop.
  by rewrite <- !app_assoc.
Qed.

(** ** The matcher on the port pattern *)

Section PortFacts.

Import Py Re.

Local Arguments sub : simpl never.

Lemma run_chars (l : str) (r : regex) (s : str) (pos : nat) (g : span)
    (k : str -> nat -> span -> option found) :
  run (chars l r) s pos g k
  = if starts_with l s then run r (drop (length l) s) (pos + length l) g k else None.
Proof.
  revert s pos. induction l as [|a l IH]; intros s pos.
  - cbn [chars starts_with length]. by rewrite drop_0, Nat.add_0_r.
  - destruct s as [|c s]; [done|].
    cbn [chars run cmatch starts_with length drop].
    destruct (Ascii.eqb a c); [|done].
    rewrite IH. by replace (S pos + length l) with (pos + S (length l)) by lia.
Qed.

(** Every match of the port pattern starts with the ten literal bytes. *)
Lemma re_match_port_prefix (s : str) :
  starts_with (lit "http://127") s = false -> re_match REPLACE_PORT_RE s = None.
Proof.
  intros H. unfold re_match, REPLACE_PORT_RE. by rewrite run_chars, H.
Qed.

(** A loopback URL with a port of four digits is matched, port included. *)
Lemma re_match_port_url (port rest : str) :
  length port = 4 -> Forall (λ c, is_digit c = true) port ->
  re_match REPLACE_PORT_RE (recorded_url port ++ rest) = Some (21, None).
Proof.
  intros Hlen Hd.
  destruct port as [|a [|b [|c [|d [|]]]]]; try done.
  apply Forall_cons in Hd as [Ha Hd]. apply Forall_cons in Hd as [Hb Hd].
  apply Forall_cons in Hd as [Hc Hd]. apply Forall_cons in Hd as [Hd _].
  unfold re_match, REPLACE_PORT_RE, recorded_url, lit.
  cbn. by rewrite Ha, Hb, Hc, Hd.
Qed.

Lemma sub_port_url (new port rest : str) :
  length port = 4 -> Forall (λ c, is_digit c = true) port ->
  sub REPLACE_PORT_RE (ReplBytes new) (recorded_url port ++ rest)
  = new ++ sub REPLACE_PORT_RE (ReplBytes new) rest.
Proof.
  intros Hlen Hd. pose proof (re_match_port_url port rest Hlen Hd) as Hm.
  change (recorded_url port ++ rest)
    with ("h"%char :: (drop 1 (lit "http://127.0.0.1:") ++ port) ++ rest) in *.
  rewrite (sub_hit _ _ _ _ _ _ Hm). cbn [expand]. f_equal. f_equal.
  change ("h"%char :: (drop 1 (lit "http://127.0.0.1:") ++ port) ++ rest)
    with ((lit "http://127.0.0.1:" ++ port) ++ rest).
  rewrite drop_app_length'; [done|]. rewrite length_app, Hlen. done.
Qed.

(** Text without the literal prefix is copied, up to a URL or to the end. *)
Lemma plain_before_h (v z : str) (k : nat) :
  find (lit "http://127") v = (-1)%Z -> k < length v ->
  starts_with (lit "http://127") (drop k v ++ "h"%char :: z) = false.
Proof.
  intros Hf Hk. rewrite find_absent in Hf. specialize (Hf k).
  destruct (drop k v) as [|a u] eqn:D.
  { apply (f_equal length) in D. rewrite length_drop in D. cbn [length] in D. lia. }
  destruct (starts_with (lit "http://127") ((a :: u) ++ "h"%char :: z)) eqn:E; [|done].
  rewrite <- Hf. symmetry.
  change (lit "http://127") with ("h"%char :: lit "ttp://127") in *.
  cbn [starts_with app] in *. destruct (Ascii.eqb "h" a); [|done].
  assert (length (lit "ttp://127") <= length u) as Hlen.
  { eapply starts_with_stop; [|exact E].
    intros Hin. unfold lit in Hin. cbn [list_ascii_of_string] in Hin.
    repeat (apply elem_of_cons in Hin as [?|Hin]; [done|]).
    by apply elem_of_nil in Hin. }
  by rewrite starts_with_app_l in E.
Qed.

Lemma sub_port_plain (new v x : str) :
  (forall k, k < length v -> starts_with (lit "http://127") (drop k v ++ x) = false) ->
  sub REPLACE_PORT_RE (ReplBytes new) (v ++ x)
  = v ++ sub REPLACE_PORT_RE (ReplBytes new) x.
Proof.
  induction v as [|c v IH]; intros H; [done|].
  rewrite <- app_comm_cons, sub_miss.
  - rewrite IH; [done|]. intros k Hk. apply (H (S k)). cbn [length]. lia.
  - apply re_match_port_prefix. apply (H 0). cbn [length]. lia.
Qed.

Lemma sub_port_tail (new v : str) :
  find (lit "http://127") v = (-1)%Z ->
  sub REPLACE_PORT_RE (ReplBytes new) v = v.
Proof.
  intros Hf. rewrite <- (app_nil_r v) at 1. rewrite sub_port_plain; [by rewrite app_nil_r|].
  intros k _. rewrite app_nil_r. by apply find_absent.
Qed.

(** The replay rewriting of a fixture made of plain chunks and loopback URLs
    with four-digit ports. *)
Lemma sub_port_assemble (new : str) (chunks : list (str * str)) (tail : str) :
  Forall (λ cp, find (lit "http://127") cp.1 = (-1)%Z
                /\ length cp.2 = 4 /\ Forall (λ c, is_digit c = true) cp.2) chunks ->
  find (lit "http://127") tail = (-1)%Z ->
  sub REPLACE_PORT_RE (ReplBytes new) (assemble recorded_url chunks tail)
  = assemble (λ _, new) chunks tail.
Proof.
  intros Hc Ht. induction Hc as [|[plain port] chunks (Hp & Hlen & Hd) _ IH];
    cbn [assemble fst snd] in *.
  - by apply sub_port_tail.
  - rewrite sub_port_plain.
    + by rewrite sub_port_url, IH.
    + intros k Hk. unfold recorded_url. rewrite <- app_assoc.
      by apply (plain_before_h plain (lit "ttp://127.0.0.1:" ++ _) k).
Qed.

End PortFacts.

(** ** When the precision step leaves nothing to do *)

Section SettledFacts.

Import Py Re.

Local Arguments sub : simpl never.
Local Abbreviation truncate := (sub REPLACE_PRECISION_RE ReplGroup1).

Lemma settled_cons (c : ascii) (s : str) :
  settled (c :: s) = true <-> precision_match (c :: s) = None /\ settled s = true.
Proof.
  cbn [settled]. destruct (precision_match (c :: s)).
  - split; [done|]. by intros [? _].
  - split; [done|]. by intros [_ ?].
Qed.

Lemma truncate_settled (s : str) : settled s = true -> truncate s = s.
Proof.
  induction s as [|c s IH]; [done|].
  rewrite settled_cons. intros [Hm Hs].
  by rewrite sub_precision_miss, IH.
Qed.

Lemma settled_copy (n s : str) :
  Forall (λ c, is_digit c = false) n -> settled s = true -> settled (n ++ s) = true.
Proof.
  intros Hn Hs. induction Hn as [|c n Hc _ IH]; [done|].
  rewrite <- app_comm_cons. apply settled_cons.
  split; [by apply precision_match_not_digit|done].
Qed.

Lemma settled_drop (k : nat) (s : str) : settled s = true -> settled (drop k s) = true.
Proof.
  revert s. induction k as [|k IH]; intros s; [by rewrite drop_0|].
  destruct s as [|c s]; [done|]. rewrite settled_cons. intros [_ Hs]. by apply IH.
Qed.

Lemma leading_0_head (c : ascii) (s : str) :
  leading (c :: s) = 0 -> is_digit c = false.
Proof. cbn [leading]. by destruct (is_digit c). Qed.

Lemma truncate_nondigit (c : ascii) (s : str) :
  is_digit c = false -> truncate (c :: s) = c :: truncate s.
Proof. intros H. by rewrite sub_precision_miss by by apply precision_match_not_digit. Qed.

Lemma leading_truncate_0 (s : str) : leading s = 0 -> leading (truncate s) = 0.
Proof.
  destruct s as [|c s]; [done|]. intros H. apply leading_0_head in H.
  rewrite truncate_nondigit by done. cbn [leading]. by rewrite H.
Qed.

Lemma after_ok_truncate (s : str) :
  leading s = 0 -> starts_with (lit ".") s = false -> after_ok (truncate s) = true.
Proof.
  destruct s as [|c s]; [done|]. intros H Hp. apply leading_0_head in H.
  rewrite truncate_nondigit by done. cbn [after_ok].
  change (lit ".") with ["."%char] in Hp. cbn [starts_with] in Hp.
  by destruct (Ascii.eqb "." c).
Qed.

(** Digits before a tail that completes no match. *)
Lemma precision_match_digits (d s : str) :
  Forall (λ c, is_digit c = true) d -> leading s = 0 -> after_ok s = true ->
  precision_match (d ++ s) = None.
Proof.
  intros Hd Hs Ha. unfold precision_match.
  rewrite leading_app, Hs, Nat.add_0_r by done.
  destruct d as [|c d]; [done|]. cbn [length].
  rewrite drop_app_length' by done.
  destruct s as [|c' s]; [done|]. cbn [after_ok] in Ha.
  by destruct (Ascii.eqb "." c' && (5 <=? leading s)).
Qed.

Lemma truncate_digits (d s : str) :
  Forall (λ c, is_digit c = true) d -> leading s = 0 -> after_ok s = true ->
  truncate (d ++ s) = d ++ truncate s.
Proof.
  intros Hd Hs Ha. induction Hd as [|c d Hc Hd IH]; [done|].
  rewrite <- !app_comm_cons, sub_precision_miss, IH; [done|].
  rewrite app_comm_cons. apply precision_match_digits; [by constructor|done..].
Qed.

Lemma settled_digits (d s : str) :
  Forall (λ c, is_digit c = true) d -> leading s = 0 -> after_ok s = true ->
  settled s = true -> settled (d ++ s) = true.
Proof.
  intros Hd Hs Ha Hset. induction Hd as [|c d Hc Hd IH]; [done|].
  rewrite <- app_comm_cons. apply settled_cons. split; [|done].
  rewrite app_comm_cons. apply precision_match_digits; [by constructor|done..].
Qed.

Lemma point_digits_point_cons (c : ascii) (s : str) :
  point_digits_point (c :: s) = false -> point_digits_point s = false.
Proof. cbn [point_digits_point]. by intros [_ ?]%orb_false_elim. Qed.

Lemma point_digits_point_drop (k : nat) (s : str) :
  point_digits_point s = false -> point_digits_point (drop k s) = false.
Proof.
  revert s. induction k as [|k IH]; intros s; [by rewrite drop_0|].
  destruct s as [|c s]; [done|]. intros H%point_digits_point_cons. by apply IH.
Qed.

(** After a point that no [point digits point] starts at, the digits that
    follow pass the scan untouched. *)
Lemma truncate_after_point (s : str) :
  point_digits_point ("."%char :: s) = false ->
  truncate s = take (leading s) s ++ truncate (drop (leading s) s)
  /\ (0 < leading s -> starts_with (lit ".") (drop (leading s) s) = false).
Proof.
  cbn [point_digits_point]. intros [H _]%orb_false_elim.
  change (Ascii.eqb "." ".") with true in H. cbn [andb] in H.
  assert (0 < leading s -> starts_with (lit ".") (drop (leading s) s) = false) as Hp.
  { intros Hl. destruct (Nat.ltb_spec 0 (leading s)); [done|lia]. }
  split; [|done].
  destruct (leading s) as [|f] eqn:L; [by rewrite drop_0|].
  rewrite <- (take_drop (S f) s) at 1.
  apply truncate_digits.
  - rewrite <- L. apply leading_take.
  - rewrite <- L. apply leading_stop.
  - pose proof (leading_stop s) as H0. rewrite L in H0.
    specialize (Hp ltac:(lia)).
    destruct (drop (S f) s) as [|c r]; [done|]. cbn [after_ok].
    change (lit ".") with ["."%char] in Hp. cbn [starts_with] in Hp.
    by destruct (Ascii.eqb "." c).
Qed.

(** One run of digits at the start of the scan, given that the scan settles
    every shorter string. *)
Lemma truncate_settles_digits (d r : str) :
  Forall (λ c, is_digit c = true) d ->
  d ≠ [] ->
  leading r = 0 ->
  point_digits_point r = false ->
  (forall r', length r' <= length r -> point_digits_point r' = false ->
     settled (truncate r') = true) ->
  settled (truncate (d ++ r)) = true.
Proof.
  intros Hd Hne Hr Hp IH.
  destruct (after_ok r) eqn:Ha.
  - (* nothing to cut at this run *)
    rewrite truncate_digits by done.
    apply settled_digits; [done|by apply leading_truncate_0| |by apply IH].
    destruct r as [|c r]; [done|].
    pose proof (leading_0_head _ _ Hr) as Hc.
    rewrite truncate_nondigit by done. cbn [after_ok] in *.
    destruct (Ascii.eqb_spec "."%char c) as [<-|]; [|done]. cbn [andb] in *.
    destruct (truncate_after_point r Hp) as [Ht _].
    rewrite Ht, leading_app by apply leading_take.
    rewrite length_take, leading_truncate_0 by apply leading_stop.
    destruct (Nat.leb_spec 5 (leading r)); [done|].
    destruct (Nat.leb_spec 5 (leading r `min` length r + 0)); [lia|done].
  - (* the number is cut after four decimals *)
    destruct r as [|c r]; [done|]. cbn [after_ok] in Ha.
    destruct (Ascii.eqb_spec "."%char c) as [<-|]; [|done]. cbn [andb] in Ha.
    destruct (Nat.leb_spec 5 (leading r)) as [H5|]; [|done].
    destruct (truncate_after_point r Hp) as [_ Hnp].
    pose proof (point_digits_point_cons _ _ Hp) as Hpr.
    pose proof (leading_le r) as Hle.
    rewrite <- (take_drop (leading r) r).
    rewrite truncate_number;
      [|done|done|apply leading_take|rewrite length_take; lia|apply leading_stop].
    apply settled_digits; [done|done| |].
    + cbn [after_ok]. rewrite leading_app by apply Forall_take, leading_take.
      rewrite !length_take, leading_truncate_0 by apply leading_stop.
      change (Ascii.eqb "." ".") with true. cbn [andb].
      destruct (Nat.leb_spec 5 (4 `min` (leading r `min` length r) + 0)); [lia|done].
    + apply settled_cons. split; [by apply precision_match_not_digit|].
      apply settled_digits.
      * apply Forall_take, leading_take.
      * apply leading_truncate_0, leading_stop.
      * apply after_ok_truncate; [apply leading_stop|]. apply Hnp. lia.
      * apply IH; [|by apply point_digits_point_drop].
        rewrite length_drop. cbn [length]. lia.
Qed.

(** On a path without [point digits point], one pass of the precision step
    leaves no match behind. *)
Lemma truncate_settles (t : str) :
  point_digits_point t = false -> settled (truncate t) = true.
Proof.
  remember (length t) as n eqn:Hn. revert t Hn.
  induction n as [n IH] using lt_wf_ind. intros t -> Hp.
  destruct t as [|c t]; [done|].
  destruct (is_digit c) eqn:Hc.
  - pose proof (leading_take (c :: t)) as Hd.
    pose proof (leading_stop (c :: t)) as Hr.
    pose proof (point_digits_point_drop (leading (c :: t)) _ Hp) as Hpr.
    rewrite <- (take_drop (leading (c :: t)) (c :: t)).
    assert (0 < leading (c :: t)) as Hl by (cbn [leading]; rewrite Hc; lia).
    apply truncate_settles_digits; try done.
    + intros E. apply (f_equal length) in E. rewrite length_take in E.
      cbn [length] in E. lia.
    + intros r' Hlen Hp'. eapply IH; [|done..].
      rewrite length_drop in Hlen. cbn [length] in *. lia.
  - rewrite truncate_nondigit by done. apply settled_cons.
    split; [by apply precision_match_not_digit|].
    eapply IH; [|done|by apply point_digits_point_cons in Hp]. cbn [length]. lia.
Qed.

End SettledFacts.

(** ** A replacement that cannot be repeated *)

Section ReplaceOnce.

Import Py.

Local Arguments replace : simpl never.

(** [old] is [o :: old'], [new] is [n :: new']; the first character of [old]
    occurs nowhere else in [old] nor in [new], and [new] does not start with
    a character of [old]. *)
Variables (o n : ascii) (old' new' : str).
Hypothesis o_old : o ∉ old'.
Hypothesis o_new : o ∉ n :: new'.
Hypothesis n_old : n ∉ old'.

Local Abbreviation R := (replace (o :: old') (n :: new')).

Lemma starts_with_replace (p s : str) :
  o ∉ p -> n ∉ p -> starts_with p (R s) = true -> starts_with p s = true.
Proof.
  revert s. induction p as [|a p IH]; intros s Ho Hn; [done|].
  apply not_elem_of_cons in Ho as [Hao Ho]. apply not_elem_of_cons in Hn as [Han Hn].
  destruct s as [|c s]; [done|].
  destruct (starts_with (o :: old') (c :: s)) eqn:E.
  - rewrite replace_hit by done. cbn [app starts_with].
    by destruct (Ascii.eqb_spec a n).
  - rewrite replace_miss by done. cbn [starts_with].
    destruct (Ascii.eqb a c); [|done]. by apply IH.
Qed.

Lemma replace_clean (s : str) (k : nat) :
  starts_with (o :: old') (drop k (R s)) = false.
Proof.
  remember (length s) as m eqn:Hm. revert s Hm k.
  induction m as [m IH] using lt_wf_ind. intros s -> k.
  destruct s as [|c s]; [by rewrite replace_nil, drop_nil|].
  destruct (starts_with (o :: old') (c :: s)) eqn:E.
  - rewrite replace_hit by done.
    destruct (Nat.lt_ge_cases k (length (n :: new'))) as [Hk|Hk].
    + rewrite drop_app_le by lia.
      destruct (drop k (n :: new')) as [|a u] eqn:D.
      { apply (f_equal length) in D. rewrite length_drop in D.
        cbn [length] in *. lia. }
      cbn [app starts_with]. destruct (Ascii.eqb_spec o a) as [->|]; [|done].
      exfalso. apply o_new. apply (subseteq_drop k). rewrite D. by left.
    + rewrite drop_app_ge by done. eapply IH; [|done].
      rewrite length_drop. cbn [length]. lia.
  - rewrite replace_miss by done. destruct k as [|k].
    + rewrite drop_0. cbn [starts_with]. cbn [starts_with] in E.
      destruct (Ascii.eqb o c); [|done].
      destruct (starts_with old' (R s)) eqn:E'; [|done].
      by rewrite (starts_with_replace _ _ o_old n_old E') in E.
    + cbn [drop]. eapply IH; [|done]. cbn [length]. lia.
Qed.

Lemma replace_absent (s : str) :
  (forall k, starts_with (o :: old') (drop k s) = false) -> R s = s.
Proof.
  induction s as [|c s IH]; intros H; [done|].
  rewrite replace_miss by apply (H 0). f_equal. apply IH.
  intros k. apply (H (S k)).
Qed.

Lemma replace_twice (s : str) : R (R s) = R s.
Proof. apply replace_absent. intros k. apply replace_clean. Qed.

End ReplaceOnce.

(** ** The marker step after the precision step *)

Section UnmarkFacts.

Import Py Re.

Local Arguments sub : simpl never.
Local Arguments replace : simpl never.
Local Abbreviation truncate := (sub REPLACE_PRECISION_RE ReplGroup1).
Local Abbreviation unmark := (replace (lit "_fakeogcapi") (lit "request")).

Lemma unmark_twice (s : str) : unmark (unmark s) = unmark s.
Proof.
  apply (replace_twice "_" "r" (lit "fakeogcapi") (lit "equest"));
    apply (bool_decide_unpack _); by vm_compute.
Qed.

Lemma unmark_nondigit (c : ascii) (s : str) :
  is_digit c = false ->
  exists c' s', unmark (c :: s) = c' :: s' /\ is_digit c' = false
    /\ Ascii.eqb "." c' = Ascii.eqb "." c
    /\ (Ascii.eqb "." c = true -> s' = unmark s).
Proof.
  intros Hc. destruct (starts_with (lit "_fakeogcapi") (c :: s)) eqn:E.
  - change (lit "_fakeogcapi") with ("_"%char :: lit "fakeogcapi") in *.
    rewrite replace_hit by done.
    eexists "r"%char, _. split; [done|]. split; [done|].
    cbn [starts_with] in E. destruct (Ascii.eqb_spec "_"%char c) as [<-|]; [|done].
    done.
  - change (lit "_fakeogcapi") with ("_"%char :: lit "fakeogcapi") in *.
    rewrite replace_miss by done. by eexists c, _.
Qed.

Lemma unmark_digits (d s : str) :
  Forall (λ c, is_digit c = true) d -> unmark (d ++ s) = d ++ unmark s.
Proof.
  intros Hd. change (lit "_fakeogcapi") with ("_"%char :: lit "fakeogcapi").
  apply replace_copy. eapply Forall_impl; [exact Hd|].
  intros c. apply digit_not_in_marker.
Qed.

Lemma leading_unmark_0 (s : str) : leading s = 0 -> leading (unmark s) = 0.
Proof.
  destruct s as [|c s]; [done|]. intros H%leading_0_head.
  destruct (unmark_nondigit c s H) as (c' & s' & -> & Hc' & _).
  cbn [leading]. by rewrite Hc'.
Qed.

Lemma leading_unmark (s : str) : leading (unmark s) = leading s.
Proof.
  rewrite <- (take_drop (leading s) s) at 1.
  rewrite unmark_digits by apply leading_take.
  rewrite leading_app by apply leading_take.
  rewrite leading_unmark_0 by apply leading_stop.
  pose proof (leading_le s). rewrite length_take. lia.
Qed.

(** The marker step moves no digit and no point: what the precision pattern
    matches at the start is the same before and after. *)
Lemma precision_match_unmark (s : str) :
  precision_match (unmark s) = precision_match s.
Proof.
  unfold precision_match. rewrite leading_unmark.
  destruct (leading s) as [|d] eqn:L; [done|].
  pose proof (leading_le s) as Hle.
  assert (drop (S d) (unmark s) = unmark (drop (S d) s)) as ->.
  { rewrite <- (take_drop (S d) s) at 1.
    rewrite unmark_digits by (rewrite <- L; apply leading_take).
    rewrite drop_app_length'; [done|]. rewrite length_take. lia. }
  pose proof (leading_stop s) as H0. rewrite L in H0.
  destruct (drop (S d) s) as [|c r]; [done|].
  apply leading_0_head in H0.
  destruct (unmark_nondigit c r H0) as (c' & s' & -> & _ & Hp & Hs).
  rewrite Hp. destruct (Ascii.eqb "." c); [|done].
  by rewrite Hs, leading_unmark.
Qed.

Lemma settled_unmark (s : str) : settled s = true -> settled (unmark s) = true.
Proof.
  remember (length s) as m eqn:Hm. revert s Hm.
  induction m as [m IH] using lt_wf_ind. intros s -> Hs.
  destruct s as [|c s]; [done|].
  destruct (starts_with (lit "_fakeogcapi") (c :: s)) eqn:E.
  - change (lit "_fakeogcapi") with ("_"%char :: lit "fakeogcapi") in *.
    rewrite replace_hit by done. apply settled_copy; [by repeat constructor|].
    eapply IH; [|done|by apply settled_drop].
    rewrite length_drop. cbn [length]. lia.
  - pose proof (precision_match_unmark (c :: s)) as Hm.
    apply settled_cons in Hs as [Hn Hs]. rewrite Hn in Hm.
    change (lit "_fakeogcapi") with ("_"%char :: lit "fakeogcapi") in *.
    rewrite replace_miss in * by done.
    apply settled_cons. split; [done|].
    eapply IH; [|done..]. cbn [length]. lia.
Qed.

Lemma starts_with_point_mask (s : str) :
  starts_with (lit ".") (mask <$> s) = starts_with (lit ".") s.
Proof.
  destruct s as [|c s]; [done|]. rewrite fmap_cons.
  change (lit ".") with ["."%char]. cbn [starts_with].
  by rewrite mask_is_point.
Qed.

Lemma point_digits_point_mask (s : str) :
  point_digits_point (mask <$> s) = point_digits_point s.
Proof.
  induction s as [|c s IH]; [done|].
  rewrite fmap_cons. cbn [point_digits_point].
  by rewrite mask_is_point, leading_mask, <- fmap_drop, starts_with_point_mask, IH.
Qed.

(** A key is a fixed point of key derivation, for a path without
    [point digits point]. *)
Lemma sanitize_url_fixed (s : str) :
  point_digits_point s = false -> sanitize_url (sanitize_url s) = sanitize_url s.
Proof.
  intros Hp. rewrite (sanitize_url_steps (sanitize_url s)).
  rewrite mask_id by apply sanitize_url_unreserved.
  rewrite sanitize_url_steps.
  rewrite truncate_settled.
  - apply unmark_twice.
  - apply settled_unmark, truncate_settles. by rewrite point_digits_point_mask.
Qed.

End UnmarkFacts.

(** * The claims *)

(** ** Recording: a fetch that fails *)

(** What the failed fetch leaves at the request's own key: the file that
    [open(..., "wb+")] made before the request went out, with nothing in it. *)
Lemma failed_fetch_leaves_empty_file (g : globals) (up : upstream) (h : handler)
    (w : world) (e : exn) :
  RECORD g = true -> is_fake h = true ->
  RECORD_NEW_ONLY g = false \/ files w !! request_data_path g h = None ->
  files w !! request_data_path g h ≠ Some Directory ->
  path_error (request_data_path g h) = None ->
  up (upstream_url h) = inl e ->
  files (do_GET g up h w).1 !! request_data_path g h = Some (File []).
Proof.
  intros HR Hf Hn Hd Hok He. rewrite do_GET_record_fetch, He by done.
  cbn [fst files]. apply lookup_insert_eq.
Qed.

(** C1, as stated, fails: with an existing fixture and an upstream whose
    transport fails, the handler answers with the 404 page instead of letting
    the error out, and the fixture of the request's key is no longer what it
    was: it is empty. The store entry changes in the same way when the error
    is not an [IOError] and does leave the handler. *)
Lemma failed_fetch_answered_and_fixture_emptied :
  (do_GET (record_globals false) unreachable collections_handler
     (world_with (lit "HTTP/1.1 200 OK"))).2
  = not_found collections_handler
  /\ files (do_GET (record_globals false) unreachable collections_handler
              (world_with (lit "HTTP/1.1 200 OK"))).1
       !! request_data_path (record_globals false) collections_handler
     = Some (File [])
  /\ files (world_with (lit "HTTP/1.1 200 OK"))
       !! request_data_path (record_globals false) collections_handler
     = Some (File (lit "HTTP/1.1 200 OK"))
  /\ (do_GET (record_globals false) crashing collections_handler
        (world_with (lit "HTTP/1.1 200 OK"))).2
     = Raised OtherError
  /\ files (do_GET (record_globals false) crashing collections_handler
              (world_with (lit "HTTP/1.1 200 OK"))).1
       !! request_data_path (record_globals false) collections_handler
     = Some (File []).
Proof. repeat split; by vm_compute. Qed.

(** C1, amended: in recording mode, when the fetch for a synthetic request is
    made and fails, for a fixture path that [open] takes (no NUL byte, no
    name too long, no directory there), an error that is an [IOError] (as
    the transport errors of [requests] are) is caught by the handler, which
    answers with the 404 page naming the path; any other error leaves
    [do_GET]. No entry of the store other than the one of the request's key
    is changed. *)
Theorem failed_fetch_answer (g : globals) (up : upstream) (h : handler)
    (w : world) (e : exn) :
  RECORD g = true -> is_fake h = true ->
  RECORD_NEW_ONLY g = false \/ files w !! request_data_path g h = None ->
  files w !! request_data_path g h ≠ Some Directory ->
  path_error (request_data_path g h) = None ->
  up (upstream_url h) = inl e ->
  (do_GET g up h w).2
  = (if is_IOError e
     then SendError 404 (lit "File Not Found: " ++ path h)
            (lit "The requested URL was not found on this server.")
     else Raised e)
  /\ forall q, q ≠ request_data_path g h ->
       files (do_GET g up h w).1 !! q = files w !! q.
Proof.
  intros HR Hf Hn Hd Hok He. rewrite do_GET_record_fetch, He by done.
  cbn [fst snd files]. split; [done|].
  intros q Hq. by apply lookup_insert_ne.
Qed.

Lemma failed_fetch_answer_witness :
  (do_GET (record_globals false) unreachable collections_handler
     (world_with (lit "HTTP/1.1 200 OK"))).2
  = SendError 404 (lit "File Not Found: /fakeogcapi/collections")
      (lit "The requested URL was not found on this server.")
  /\ forall q, q ≠ request_data_path (record_globals false) collections_handler ->
       files (do_GET (record_globals false) unreachable collections_handler
                (world_with (lit "HTTP/1.1 200 OK"))).1 !! q
       = files (world_with (lit "HTTP/1.1 200 OK")) !! q.
Proof.
  apply (failed_fetch_answer (record_globals false) unreachable collections_handler
           (world_with (lit "HTTP/1.1 200 OK")) RequestException).
  - reflexivity.
  - vm_compute. reflexivity.
  - left. reflexivity.
  - vm_compute. discriminate.
  - vm_compute. reflexivity.
  - reflexivity.
Defined.

(** ** Replay: the rewriting of recorded ports *)

(** C2, as stated, fails: a fixture recorded against the ephemeral port 54321
    and replayed on port 8081 is not served with [http://127.0.0.1:54321]
    rewritten to the current address and port; the pattern takes four digits
    of the old port and the fifth stays behind the new one. *)
Lemma replay_five_digit_port :
  (do_GET replay_globals unreachable collections_handler
     (world_with (lit "Location: " ++ lit "http://127.0.0.1:" ++ Py.str_of_N 54321
                    ++ lit "/fakeogcapi/c"))).2
  = Wrote (lit "Location: http://127.0.0.1:80811/fakeogcapi/c")
  /\ (do_GET replay_globals unreachable collections_handler
        (world_with (lit "Location: " ++ lit "http://127.0.0.1:" ++ Py.str_of_N 54321
                       ++ lit "/fakeogcapi/c"))).2
     ≠ Wrote (lit "Location: " ++ current_base collections_handler
                ++ lit "/fakeogcapi/c").
Proof. split; by vm_compute. Qed.

(** C2, amended: in replay mode, for a synthetic GET whose fixture file
    exists and is made of chunks without the bytes [http://127], each
    followed by [http://127.0.0.1:] and a port of exactly four digits, the
    response is the fixture with each of these URLs replaced by [http://],
    the host of [address_string()], [:] and the current server port, and with
    every chunk unchanged; the store is not changed. *)
Theorem replay_rewrites_four_digit_ports (g : globals) (up : upstream)
    (h : handler) (w : world) (chunks : list (str * str)) (tail : str) :
  RECORD g = false ->
  Py.find (lit "/fakeogcapi") (path h) ≠ (-1)%Z ->
  files w !! request_data_path g h = Some (File (assemble recorded_url chunks tail)) ->
  Forall (λ cp, Py.find (lit "http://127") cp.1 = (-1)%Z
                /\ length cp.2 = 4 /\ Forall (λ c, Re.is_digit c = true) cp.2) chunks ->
  Py.find (lit "http://127") tail = (-1)%Z ->
  do_GET g up h w = (w, Wrote (assemble (λ _, current_base h) chunks tail)).
Proof.
  intros HR Hf Hp Hc Ht. rewrite do_GET_replay by done.
  rewrite is_fake_find. destruct (Z.eqb_spec (Py.find (lit "/fakeogcapi") (path h)) (-1));
    [done|]. cbn [negb]. rewrite Hp. by rewrite sub_port_assemble.
Qed.

Lemma replay_rewrites_four_digit_ports_witness :
  do_GET replay_globals unreachable collections_handler
    (world_with (lit "Location: http://127.0.0.1:8080/fakeogcapi/c"))
  = (world_with (lit "Location: http://127.0.0.1:8080/fakeogcapi/c"),
     Wrote (lit "Location: http://127.0.0.1:8081/fakeogcapi/c")).
Proof.
  apply (replay_rewrites_four_digit_ports replay_globals unreachable
           collections_handler
           (world_with (lit "Location: http://127.0.0.1:8080/fakeogcapi/c"))
           [(lit "Location: ", lit "8080")] (lit "/fakeogcapi/c")).
  - reflexivity.
  - vm_compute. discriminate.
  - vm_compute. reflexivity.
  - repeat constructor.
  - vm_compute. reflexivity.
Defined.

(** ** Key derivation *)

(** C3, as stated, fails: the key of a collection reached through the
    synthetic path is not the key of the path the recording run fetches it
    from, be that the path relative to the upstream endpoint, the path below
    the host, or the whole upstream URL. *)
Lemma synthetic_key_is_not_upstream_key :
  sanitize_url (lit "/fakeogcapi/collections") = lit "request_collections"
  /\ sanitize_url (Py.replace (lit "/fakeogcapi") [] (lit "/fakeogcapi/collections"))
     = lit "_collections"
  /\ sanitize_url (ENDPOINT_PATH
                     ++ Py.replace (lit "/fakeogcapi") [] (lit "/fakeogcapi/collections"))
     = lit "_ogcapi_collections"
  /\ sanitize_url (upstream_url collections_handler)
     = lit "https___maps.gnosis.earth_ogcapi_collections".
Proof. repeat split; by vm_compute. Qed.

(** C3, amended: key derivation replaces each character of the reserved set
    [& # / ? = : , ( )] by [_], so that no reserved character is left in the
    key, and, after the precision step, replaces the marker [_fakeogcapi] by
    the literal [request]; the key of a synthetic path [/fakeogcapi<rest>] is
    [request] followed by the key of [<rest>], and so differs from the key of
    the path [<rest>] below the upstream endpoint. *)
Theorem sanitize_url_marker_prefix (url rest : str) :
  sanitize_url url
  = Py.replace (lit "_fakeogcapi") (lit "request")
      (Re.sub REPLACE_PRECISION_RE Re.ReplGroup1 (mask <$> url))
  /\ Forall (λ c, reserved c = false) (sanitize_url url)
  /\ sanitize_url (lit "/fakeogcapi" ++ rest) = lit "request" ++ sanitize_url rest
  /\ sanitize_url (lit "/fakeogcapi" ++ rest) ≠ sanitize_url rest.
Proof.
  split; [apply sanitize_url_steps|].
  split; [apply sanitize_url_unreserved|].
  split; [apply sanitize_url_marker|].
  rewrite sanitize_url_marker. intros E.
  apply (f_equal length) in E. rewrite length_app in E. cbn in E. lia.
Qed.

(** C4, as stated, fails: in the path [1.23456.78901] the decimal number
    [23456.78901] has five digits after its point, and the key does not hold
    it cut to [23456.7890]: the scan took [1.23456] first and goes on behind
    it, so that all five decimals stay. *)
Lemma number_behind_a_match_keeps_its_decimals :
  sanitize_url (lit "1." ++ lit "23456" ++ lit "." ++ lit "78901")
  = lit "1.2345.78901"
  /\ Py.find (lit "23456" ++ lit "." ++ take 4 (lit "78901"))
       (sanitize_url (lit "1." ++ lit "23456" ++ lit "." ++ lit "78901"))
     = (-1)%Z.
Proof. split; by vm_compute. Qed.

(** C4, amended: for every decimal number in a request path, that is all the
    digits before a point, the point, and all the digits after it, more than
    four, unless the number follows a digit and a point directly: the key
    holds the digits before the point, the point and exactly the first four
    digits after it, whatever the others are, between the keys of what comes
    before and after the number. *)
Theorem sanitize_url_truncates_decimals (pre int frac post : str) :
  int ≠ [] ->
  Forall (λ c, Re.is_digit c = true) int ->
  Forall (λ c, Re.is_digit c = true) frac ->
  4 < length frac ->
  open_end pre = false ->
  leading post = 0 ->
  sanitize_url (pre ++ int ++ lit "." ++ frac ++ post)
  = sanitize_url pre ++ int ++ lit "." ++ take 4 frac ++ sanitize_url post.
Proof. apply sanitize_url_number. Qed.

Lemma sanitize_url_truncates_decimals_witness :
  sanitize_url (lit "/fakeogcapi/map?bbox=" ++ lit "53" ++ lit "."
                  ++ lit "54210000001" ++ lit ",-9.5")
  = sanitize_url (lit "/fakeogcapi/map?bbox=") ++ lit "53" ++ lit "."
      ++ take 4 (lit "54210000001") ++ sanitize_url (lit ",-9.5").
Proof.
  apply (sanitize_url_truncates_decimals (lit "/fakeogcapi/map?bbox=") (lit "53")
           (lit "54210000001") (lit ",-9.5")).
  - discriminate.
  - repeat constructor.
  - repeat constructor.
  - vm_compute. lia.
  - reflexivity.
  - reflexivity.
Defined.

(** The two numbers of the specification. *)
Example truncates_53_54210000001 : sanitize_url (lit "53.54210000001") = lit "53.5421".
Proof. by vm_compute. Qed.

Example truncates_53_54219999 : sanitize_url (lit "53.54219999") = lit "53.5421".
Proof. by vm_compute. Qed.

(** C8: key derivation is a function of the request path alone: two requests
    for the same path derive the same key whatever the switches, the client,
    the port and the state of the store are, and with it the same fixture
    file once the directory of the module is the same. *)
Theorem fixture_key_deterministic (g1 g2 : globals) (h1 h2 : handler) :
  path h1 = path h2 ->
  module_dir g1 = module_dir g2 ->
  sanitize_url (path h1) = sanitize_url (path h2)
  /\ request_data_path g1 h1 = request_data_path g2 h2.
Proof.
  intros Hp Hd. unfold request_data_path, BASE_TEST_DATA_PATH.
  by rewrite Hp, Hd.
Qed.

Lemma fixture_key_deterministic_witness :
  sanitize_url (path collections_handler)
  = sanitize_url (path {| path := lit "/fakeogcapi/collections";
                          client_host := lit "10.0.0.7";
                          server_port := 8093 |})
  /\ request_data_path replay_globals collections_handler
     = request_data_path (record_globals true)
         {| path := lit "/fakeogcapi/collections";
            client_host := lit "10.0.0.7";
            server_port := 8093 |}.
Proof.
  apply (fixture_key_deterministic replay_globals (record_globals true)
           collections_handler
           {| path := lit "/fakeogcapi/collections";
              client_host := lit "10.0.0.7";
              server_port := 8093 |}).
  - reflexivity.
  - reflexivity.
Defined.

(** C9, as stated, fails: the key of [1.23456.78901] is [1.2345.78901], which
    still holds a point followed by five digits, and key derivation applied
    to it gives [1.2345.7890]. *)
Lemma sanitize_url_not_idempotent :
  sanitize_url (lit "1.23456.78901") = lit "1.2345.78901"
  /\ sanitize_url (sanitize_url (lit "1.23456.78901")) = lit "1.2345.7890"
  /\ sanitize_url (sanitize_url (lit "1.23456.78901"))
     ≠ sanitize_url (lit "1.23456.78901").
Proof. repeat split; by vm_compute. Qed.

(** C9, amended: [sanitize_url (sanitize_url s)] equals [sanitize_url s] for
    every string [s] that nowhere holds a point, one digit or more, and
    another point; the key it derives holds no reserved character, no match
    of the precision pattern and no marker. *)
Theorem sanitize_url_idempotent (s : str) :
  point_digits_point s = false ->
  sanitize_url (sanitize_url s) = sanitize_url s
  /\ Forall (λ c, reserved c = false) (sanitize_url s)
  /\ settled (sanitize_url s) = true
  /\ Py.find (lit "_fakeogcapi") (sanitize_url s) = (-1)%Z.
Proof.
  intros Hp. split; [by apply sanitize_url_fixed|].
  split; [apply sanitize_url_unreserved|].
  rewrite sanitize_url_steps. split.
  - apply settled_unmark, truncate_settles. by rewrite point_digits_point_mask.
  - apply find_absent. intros k.
    apply (replace_clean "_" "r" (lit "fakeogcapi") (lit "equest"));
      apply (bool_decide_unpack _); by vm_compute.
Qed.

Lemma sanitize_url_idempotent_witness :
  sanitize_url (sanitize_url (lit "/fakeogcapi/map?bbox=-9.54321012,53.54210000001"))
  = sanitize_url (lit "/fakeogcapi/map?bbox=-9.54321012,53.54210000001")
  /\ Forall (λ c, reserved c = false)
       (sanitize_url (lit "/fakeogcapi/map?bbox=-9.54321012,53.54210000001"))
  /\ settled (sanitize_url (lit "/fakeogcapi/map?bbox=-9.54321012,53.54210000001"))
     = true
  /\ Py.find (lit "_fakeogcapi")
       (sanitize_url (lit "/fakeogcapi/map?bbox=-9.54321012,53.54210000001"))
     = (-1)%Z.
Proof.
  apply (sanitize_url_idempotent
           (lit "/fakeogcapi/map?bbox=-9.54321012,53.54210000001")).
  vm_compute. reflexivity.
Defined.

(** ** Replay: found or not found *)

(** C5, as stated, fails: in replay mode, for a synthetic path with a NUL
    byte, the fixture file is absent and yet no 404 page is sent: [open]
    raises [ValueError], which [except IOError] does not catch, and the
    exception leaves [do_GET]. *)
Lemma replay_nul_path_raises :
  Py.find (lit "/fakeogcapi") (path nul_handler) ≠ (-1)%Z
  /\ files {| files := ∅; fetched := [] |} !! request_data_path replay_globals nul_handler
     = None
  /\ (do_GET replay_globals unreachable nul_handler {| files := ∅; fetched := [] |}).2
     = Raised ValueError
  /\ (do_GET replay_globals unreachable nul_handler {| files := ∅; fetched := [] |}).2
     ≠ SendError 404 (lit "File Not Found: " ++ path nul_handler)
         (lit "The requested URL was not found on this server.").
Proof. repeat split; by vm_compute. Qed.

(** C5, amended: in replay mode, for a request whose fixture path holds no
    NUL byte, a GET is answered with the 404 page, whose message names the
    requested path, exactly when the path does not hold the marker
    [/fakeogcapi], or the fixture file of its key is absent, or reading it
    fails (the path is a directory); in every other case the bytes of the
    fixture are served, rewritten by the port pattern, and no 404. *)
Theorem replay_not_found_iff (g : globals) (up : upstream) (h : handler) (w : world) :
  RECORD g = false ->
  has_nul (request_data_path g h) = false ->
  ((do_GET g up h w).2
   = SendError 404 (lit "File Not Found: " ++ path h)
       (lit "The requested URL was not found on this server.")
   <-> Py.find (lit "/fakeogcapi") (path h) = (-1)%Z
       \/ files w !! request_data_path g h = None
       \/ files w !! request_data_path g h = Some Directory)
  /\ (forall data,
        Py.find (lit "/fakeogcapi") (path h) ≠ (-1)%Z ->
        files w !! request_data_path g h = Some (File data) ->
        (do_GET g up h w).2
        = Wrote (Re.sub REPLACE_PORT_RE (Re.ReplBytes (current_base h)) data)).
Proof.
  intros HR Hnul. rewrite do_GET_replay by done. cbn [snd]. rewrite Hnul.
  rewrite is_fake_find. fold (not_found h).
  destruct (Z.eqb_spec (Py.find (lit "/fakeogcapi") (path h)) (-1)) as [Hf|Hf];
    cbn [negb].
  - split; [|done]. split; [by left|done].
  - destruct (files w !! request_data_path g h) as [[data|]|] eqn:Hp.
    + split.
      * split; [done|]. by intros [?|[?|?]].
      * by intros data' _ [= <-].
    + split; [|done]. split; [by right; right|done].
    + split; [|done]. split; [by right; left|done].
Qed.

Lemma replay_not_found_iff_witness :
  ((do_GET replay_globals unreachable collections_handler (world_with (lit "HTTP/1.1 200 OK"))).2
   = SendError 404 (lit "File Not Found: " ++ path collections_handler)
       (lit "The requested URL was not found on this server.")
   <-> Py.find (lit "/fakeogcapi") (path collections_handler) = (-1)%Z
       \/ files (world_with (lit "HTTP/1.1 200 OK"))
            !! request_data_path replay_globals collections_handler = None
       \/ files (world_with (lit "HTTP/1.1 200 OK"))
            !! request_data_path replay_globals collections_handler = Some Directory)
  /\ (forall data,
        Py.find (lit "/fakeogcapi") (path collections_handler) ≠ (-1)%Z ->
        files (world_with (lit "HTTP/1.1 200 OK"))
          !! request_data_path replay_globals collections_handler = Some (File data) ->
        (do_GET replay_globals unreachable collections_handler
           (world_with (lit "HTTP/1.1 200 OK"))).2
        = Wrote (Re.sub REPLACE_PORT_RE (Re.ReplBytes (current_base collections_handler))
                   data)).
Proof.
  apply (replay_not_found_iff replay_globals unreachable collections_handler
           (world_with (lit "HTTP/1.1 200 OK"))).
  - reflexivity.
  - vm_compute. reflexivity.
Defined.

(** The three ways to the 404 page and the way past it, on concrete stores. *)
Example replay_serves_fixture :
  do_GET replay_globals unreachable collections_handler
    (world_with (lit "HTTP/1.1 200 OK"))
  = (world_with (lit "HTTP/1.1 200 OK"), Wrote (lit "HTTP/1.1 200 OK")).
Proof. by vm_compute. Qed.

Example replay_missing_fixture :
  (do_GET replay_globals unreachable collections_handler
     {| files := ∅; fetched := [] |}).2
  = SendError 404 (lit "File Not Found: /fakeogcapi/collections")
      (lit "The requested URL was not found on this server.").
Proof. by vm_compute. Qed.

Example replay_not_synthetic :
  (do_GET replay_globals unreachable
     {| path := lit "/NOT_FOUND/"; client_host := lit "127.0.0.1"; server_port := 8081 |}
     (world_with (lit "HTTP/1.1 200 OK"))).2
  = SendError 404 (lit "File Not Found: /NOT_FOUND/")
      (lit "The requested URL was not found on this server.").
Proof. by vm_compute. Qed.

(** C7: in replay mode, handling a GET changes no file of the store (nor
    anything else of the world): the rewriting of host and port is in the
    bytes of the reply only. *)
Theorem replay_keeps_store (g : globals) (up : upstream) (h : handler) (w : world) :
  RECORD g = false ->
  (do_GET g up h w).1 = w /\ files (do_GET g up h w).1 = files w.
Proof. intros HR. by rewrite do_GET_replay. Qed.

Lemma replay_keeps_store_witness :
  (do_GET replay_globals unreachable collections_handler
     (world_with (lit "Location: http://127.0.0.1:8080/fakeogcapi/c"))).1
  = world_with (lit "Location: http://127.0.0.1:8080/fakeogcapi/c")
  /\ files (do_GET replay_globals unreachable collections_handler
              (world_with (lit "Location: http://127.0.0.1:8080/fakeogcapi/c"))).1
     = files (world_with (lit "Location: http://127.0.0.1:8080/fakeogcapi/c")).
Proof.
  apply (replay_keeps_store replay_globals unreachable collections_handler
           (world_with (lit "Location: http://127.0.0.1:8080/fakeogcapi/c"))).
  reflexivity.
Defined.

(** ** Recording *)

(** C6, as stated, fails: in recording mode with an upstream that answers,
    a synthetic GET whose path holds a NUL byte fetches nothing, stores
    nothing and serves nothing, [open] raising [ValueError] before the
    request is made; and one whose key makes a file name of more than 255
    bytes is answered with the 404 page, again with nothing fetched or
    stored. *)
Lemma recording_refused_paths_fetch_nothing :
  Py.find (lit "/fakeogcapi") (path nul_handler) ≠ (-1)%Z
  /\ do_GET (record_globals false) live nul_handler {| files := ∅; fetched := [] |}
     = ({| files := ∅; fetched := [] |}, Raised ValueError)
  /\ Py.find (lit "/fakeogcapi") (path long_handler) ≠ (-1)%Z
  /\ do_GET (record_globals false) live long_handler {| files := ∅; fetched := [] |}
     = ({| files := ∅; fetched := [] |}, not_found long_handler).
Proof. repeat split; by vm_compute. Qed.

(** C6, amended: in recording mode, for a synthetic GET whose fixture path
    [open] takes (no NUL byte, no name too long, no directory there) and
    whose upstream answers: unless only new records are wanted and the
    record is there, the path without the marker is fetched from the
    upstream endpoint; the references to the endpoint and to its path in the
    body are replaced by the local synthetic endpoint (the client host of
    the handler, its server port, the marker); the whole response (status
    line, headers without [Content-Encoding] and with the length of the new
    body, empty line, new body) is written as the record of the key and the
    same bytes are served. When only new records are wanted and the record
    is there, nothing is fetched or written and the record is served. *)
Theorem record_mode_GET (g : globals) (up : upstream) (h : handler) (w : world)
    (r : response) :
  RECORD g = true ->
  Py.find (lit "/fakeogcapi") (path h) ≠ (-1)%Z ->
  files w !! request_data_path g h ≠ Some Directory ->
  path_error (request_data_path g h) = None ->
  up (lit "https://maps.gnosis.earth/ogcapi"
        ++ Py.replace (lit "/fakeogcapi") [] (path h)) = inr r ->
  let local :=
    Py.encode_utf8 (lit "http://" ++ client_host h ++ lit ":"
                      ++ Py.str_of_N (server_port h) ++ lit "/fakeogcapi") in
  let body :=
    Py.replace (lit "/ogcapi") local
      (Py.replace (lit "https://maps.gnosis.earth/ogcapi") local (content r)) in
  let record :=
    lit "HTTP/1.1 " ++ Py.encode_utf8 (Py.str_of_N (status_code r)) ++ lit " "
      ++ Py.encode_utf8 (reason r) ++ CRLF
      ++ flat_map (header_line body) (headers r) ++ CRLF ++ body in
  do_GET g up h w
  = match RECORD_NEW_ONLY g, files w !! request_data_path g h with
    | true, Some (File data) => (w, Wrote data)
    | _, _ =>
        ({| files := <[request_data_path g h := File record]> (files w);
            fetched := fetched w
              ++ [lit "https://maps.gnosis.earth/ogcapi"
                    ++ Py.replace (lit "/fakeogcapi") [] (path h)] |},
         Wrote record)
    end.
Proof.
  intros HR Hf Hd Hok Hup local body record.
  assert (is_fake h = true) as Hfake.
  { rewrite is_fake_find.
    by destruct (Z.eqb_spec (Py.find (lit "/fakeogcapi") (path h)) (-1)). }
  assert (record_data h r = record) as Hrec.
  { rewrite record_data_layout. unfold record, status_line.
    by rewrite <- !app_assoc. }
  change (lit "https://maps.gnosis.earth/ogcapi"
            ++ Py.replace (lit "/fakeogcapi") [] (path h))
    with (upstream_url h) in *.
  rewrite <- Hrec.
  destruct (RECORD_NEW_ONLY g) eqn:HN.
  - destruct (files w !! request_data_path g h) as [[data|]|] eqn:Hp.
    + by apply do_GET_record_skip.
    + done.
    + rewrite do_GET_record_fetch, Hup; [done..|by right|by rewrite Hp|done].
  - rewrite do_GET_record_fetch, Hup; [|done..|by left|done|done].
    by destruct (files w !! request_data_path g h) as [[?|]|].
Qed.

Lemma record_mode_GET_witness :
  do_GET (record_globals false) live collections_handler
    (world_with (lit "HTTP/1.1 200 OK"))
  = ({| files := <[request_data_path (record_globals false) collections_handler
                   := File (lit "HTTP/1.1 200 OK" ++ CRLF
                              ++ lit "Content-Type: application/json" ++ CRLF
                              ++ lit "Content-Length: 56" ++ CRLF ++ CRLF
                              ++ lit "{'self': 'http://127.0.0.1:8081/fakeogcapi/collections'}")]>
                   (files (world_with (lit "HTTP/1.1 200 OK")));
        fetched := [lit "https://maps.gnosis.earth/ogcapi/collections"] |},
     Wrote (lit "HTTP/1.1 200 OK" ++ CRLF
              ++ lit "Content-Type: application/json" ++ CRLF
              ++ lit "Content-Length: 56" ++ CRLF ++ CRLF
              ++ lit "{'self': 'http://127.0.0.1:8081/fakeogcapi/collections'}")).
Proof.
  pose proof (record_mode_GET (record_globals false) live collections_handler
                (world_with (lit "HTTP/1.1 200 OK")) collections_response) as H.
  rewrite H.
  - vm_compute. reflexivity.
  - reflexivity.
  - vm_compute. discriminate.
  - vm_compute. discriminate.
  - vm_compute. reflexivity.
  - reflexivity.
Defined.



(** On this store the two branches do answer differently. *)
Example record_skip_differs_from_replay :
  (do_GET (record_globals true) live collections_handler
     (world_with (lit "Location: http://127.0.0.1:8080/fakeogcapi/c"))).2
  = Wrote (lit "Location: http://127.0.0.1:8080/fakeogcapi/c")
  /\ (do_GET replay_globals live collections_handler
        (world_with (lit "Location: http://127.0.0.1:8080/fakeogcapi/c"))).2
     = Wrote (lit "Location: http://127.0.0.1:8081/fakeogcapi/c").
Proof. split; by vm_compute. Qed.

(** * Further properties of the handler *)

(** ** The decision table of [do_GET] *)

Section HandlerTable.

Variables (g : globals) (up : upstream) (h : handler) (w : world).

Local Abbreviation p := (request_data_path g h).

(** What a recording fetch makes of the world and of the reply. *)
Local Abbreviation fetch_outcome :=
  (match up (upstream_url h) with
   | inr r =>
       ({| files := <[p := File (record_data h r)]> (files w);
           fetched := fetched w ++ [upstream_url h] |},
        Wrote (record_data h r))
   | inl e =>
       ({| files := <[p := File []]> (files w);
           fetched := fetched w ++ [upstream_url h] |},
        if is_IOError e then not_found h else Raised e)
   end).

Lemma do_GET_not_fake : is_fake h = false -> do_GET g up h w = (w, not_found h).
Proof.
  intros Hf. unfold do_GET, do_GET_try. rewrite <- is_fake_find, Hf. done.
Qed.

Lemma do_GET_directory :
  files w !! p = Some Directory -> do_GET g up h w = (w, not_found h).
Proof.
  intros Hp. destruct (is_fake h) eqn:Hf; [|by apply do_GET_not_fake].
  destruct (RECORD g) eqn:HR.
  - unfold do_GET, do_GET_try. rewrite HR, Hf. cbn [andb].
    unfold bind, os_path_exists, open_read, open_truncate.
    rewrite bool_decide_eq_true_2 by by eexists.
    destruct (RECORD_NEW_ONLY g); cbn [andb]; by rewrite Hp.
  - rewrite do_GET_replay, Hf, Hp by done. done.
Qed.

(** What becomes of a GET that finds no entry while recording. *)
Local Abbreviation create_outcome :=
  (match path_error p with
   | Some e => (w, if is_IOError e then not_found h else Raised e)
   | None => fetch_outcome
   end).

(** Every case of the handler, by marker, store entry and switches. *)
Lemma do_GET_table :
  do_GET g up h w
  = if is_fake h then
      match files w !! p with
      | Some Directory => (w, not_found h)
      | Some (File data) =>
          if RECORD g then
            if RECORD_NEW_ONLY g then (w, Wrote data) else fetch_outcome
          else (w, Wrote (Re.sub REPLACE_PORT_RE (Re.ReplBytes (current_base h)) data))
      | None =>
          if RECORD g then create_outcome
          else (w, if has_nul p then Raised ValueError else not_found h)
      end
    else (w, not_found h).
Proof.
  destruct (is_fake h) eqn:Hf; [|by apply do_GET_not_fake].
  destruct (files w !! p) as [[data|]|] eqn:Hp.
  - destruct (RECORD g) eqn:HR.
    + destruct (RECORD_NEW_ONLY g) eqn:HN.
      * by apply do_GET_record_skip.
      * apply do_GET_record_fetch; [done|done|by left|by rewrite Hp|by rewrite Hp].
    + by rewrite do_GET_replay, Hf, Hp.
  - by apply do_GET_directory.
  - destruct (RECORD g) eqn:HR.
    + destruct (path_error p) as [e|] eqn:He.
      * by apply do_GET_record_refused.
      * apply do_GET_record_fetch; [done|done|by right|by rewrite Hp|done].
    + by rewrite do_GET_replay, Hf, Hp.
Qed.

End HandlerTable.

(** ** What the handler never does *)

(** A path without the marker is answered with the 404 page in every mode:
    nothing is read, written or fetched for it, recording or not. *)
Theorem non_synthetic_never_served (g : globals) (up : upstream) (h : handler)
    (w : world) :
  Py.find (lit "/fakeogcapi") (path h) = (-1)%Z ->
  do_GET g up h w
  = (w, SendError 404 (lit "File Not Found: " ++ path h)
          (lit "The requested URL was not found on this server.")).
Proof.
  intros Hf. apply do_GET_not_fake. rewrite is_fake_find, Hf. done.
Qed.

Lemma non_synthetic_never_served_witness :
  do_GET (record_globals false) live
    {| path := lit "/NOT_FOUND/"; client_host := lit "127.0.0.1"; server_port := 8081 |}
    (world_with (lit "HTTP/1.1 200 OK"))
  = (world_with (lit "HTTP/1.1 200 OK"),
     SendError 404 (lit "File Not Found: /NOT_FOUND/")
       (lit "The requested URL was not found on this server.")).
Proof.
  apply (non_synthetic_never_served (record_globals false) live
           {| path := lit "/NOT_FOUND/"; client_host := lit "127.0.0.1";
              server_port := 8081 |}
           (world_with (lit "HTTP/1.1 200 OK"))).
  vm_compute. reflexivity.
Defined.

(** Whatever the mode, the upstream and the outcome, a GET leaves every file
    but the one of its own key as it was. *)
Theorem do_GET_touches_own_file_only (g : globals) (up : upstream) (h : handler)
    (w : world) (q : str) :
  q ≠ request_data_path g h ->
  files (do_GET g up h w).1 !! q = files w !! q.
Proof.
  intros Hq. rewrite do_GET_table.
  destruct (is_fake h); [|done].
  destruct (files w !! request_data_path g h) as [[data|]|]; [| done |].
  - destruct (RECORD g); [|done]. destruct (RECORD_NEW_ONLY g); [done|].
    destruct (up (upstream_url h)); cbn [fst files]; by apply lookup_insert_ne.
  - destruct (RECORD g); [|done].
    destruct (path_error (request_data_path g h)); [done|].
    destruct (up (upstream_url h)); cbn [fst files]; by apply lookup_insert_ne.
Qed.

Lemma do_GET_touches_own_file_only_witness :
  files (do_GET (record_globals false) live collections_handler
           {| files := {[ lit "/autotest/gdrivers/data/ogcapi/expected_map_lough_corrib_MAP.png"
                          := File (lit "PNG") ]};
              fetched := [] |}).1
    !! lit "/autotest/gdrivers/data/ogcapi/expected_map_lough_corrib_MAP.png"
  = files {| files := {[ lit "/autotest/gdrivers/data/ogcapi/expected_map_lough_corrib_MAP.png"
                          := File (lit "PNG") ]};
             fetched := [] |}
      !! lit "/autotest/gdrivers/data/ogcapi/expected_map_lough_corrib_MAP.png".
Proof.
  apply (do_GET_touches_own_file_only (record_globals false) live collections_handler).
  vm_compute. discriminate.
Defined.

(** A GET makes one upstream request at most, to the URL of its own path, and
    makes it only while recording, for a synthetic path, and not when only
    new records are wanted and something is there under the key. *)
Theorem do_GET_fetches_once_at_most (g : globals) (up : upstream) (h : handler)
    (w : world) :
  fetched (do_GET g up h w).1 = fetched w
  \/ (fetched (do_GET g up h w).1
        = fetched w
            ++ [TEST_DATA_SOURCE_ENDPOINT ++ Py.replace (lit "/fakeogcapi") [] (path h)]
      /\ RECORD g = true
      /\ Py.find (lit "/fakeogcapi") (path h) ≠ (-1)%Z
      /\ ~ (RECORD_NEW_ONLY g = true
            /\ is_Some (files w !! request_data_path g h))).
Proof.
  rewrite do_GET_table, is_fake_find. fold (upstream_url h).
  destruct (Z.eqb_spec (Py.find (lit "/fakeogcapi") (path h)) (-1)) as [|Hf];
    cbn [negb]; [by left|].
  destruct (files w !! request_data_path g h) as [[data|]|] eqn:Hp; [|by left|].
  - destruct (RECORD g); [|by left]. destruct (RECORD_NEW_ONLY g) eqn:HN; [by left|].
    right. destruct (up (upstream_url h)); cbn [fst fetched];
      (repeat split; [done..|]); by intros [? _].
  - destruct (RECORD g); [|by left].
    destruct (path_error (request_data_path g h)); [by left|].
    right. destruct (up (upstream_url h)); cbn [fst fetched];
      (repeat split; [done..|]); by intros [_ [? ?]].
Qed.

(** An exception leaves [do_GET] only for a synthetic path, and is then
    either one that the upstream request raised while recording and that is
    not an [IOError], or the [ValueError] that [open] raises for a fixture
    path with a NUL byte, under which the store has no entry. *)
Theorem do_GET_raises_only_from_upstream (g : globals) (up : upstream) (h : handler)
    (w : world) (e : exn) :
  (do_GET g up h w).2 = Raised e ->
  Py.find (lit "/fakeogcapi") (path h) ≠ (-1)%Z
  /\ ((RECORD g = true
       /\ up (TEST_DATA_SOURCE_ENDPOINT
                ++ Py.replace (lit "/fakeogcapi") [] (path h)) = inl e
       /\ is_IOError e = false)
      \/ (e = ValueError
          /\ has_nul (request_data_path g h) = true
          /\ files w !! request_data_path g h = None)).
Proof.
  rewrite do_GET_table, is_fake_find. fold (upstream_url h).
  destruct (Z.eqb_spec (Py.find (lit "/fakeogcapi") (path h)) (-1)) as [|Hf];
    cbn [negb]; [done|].
  assert (forall fs,
            (match up (upstream_url h) with
             | inr r =>
                 ({| files := <[request_data_path g h := File (record_data h r)]> fs;
                     fetched := fetched w ++ [upstream_url h] |},
                  Wrote (record_data h r))
             | inl e0 =>
                 ({| files := <[request_data_path g h := File []]> fs;
                     fetched := fetched w ++ [upstream_url h] |},
                  if is_IOError e0 then not_found h else Raised e0)
             end).2 = Raised e ->
            up (upstream_url h) = inl e /\ is_IOError e = false) as Hfetch.
  { intros fs. destruct (up (upstream_url h)) as [e0|r]; cbn [snd]; [|done].
    destruct (is_IOError e0) eqn:He; [done|]. by intros [= <-]. }
  destruct (files w !! request_data_path g h) as [[data|]|]; [|done|].
  - destruct (RECORD g); [|done]. destruct (RECORD_NEW_ONLY g); [done|].
    intros [? ?]%Hfetch. split; [done|]. by left.
  - destruct (RECORD g).
    + unfold path_error.
      destruct (has_nul (request_data_path g h)) eqn:Hnul.
      * cbn [snd is_IOError]. intros [= <-]. split; [done|]. by right.
      * destruct (name_too_long (request_data_path g h)); [done|].
        intros [? ?]%Hfetch. split; [done|]. by left.
    + cbn [snd]. destruct (has_nul (request_data_path g h)) eqn:Hnul; [|done].
      intros [= <-]. split; [done|]. by right.
Qed.

Lemma do_GET_raises_only_from_upstream_witness :
  Py.find (lit "/fakeogcapi") (path nul_handler) ≠ (-1)%Z
  /\ ((RECORD replay_globals = true
       /\ unreachable (TEST_DATA_SOURCE_ENDPOINT
                         ++ Py.replace (lit "/fakeogcapi") [] (path nul_handler))
          = inl ValueError
       /\ is_IOError ValueError = false)
      \/ (ValueError = ValueError
          /\ has_nul (request_data_path replay_globals nul_handler) = true
          /\ files {| files := ∅; fetched := [] |}
               !! request_data_path replay_globals nul_handler = None)).
Proof.
  apply (do_GET_raises_only_from_upstream replay_globals unreachable
           nul_handler {| files := ∅; fetched := [] |} ValueError).
  vm_compute. reflexivity.
Defined.

(** A directory at the path of the fixture: the GET is answered with the 404
    page in every mode, and neither the store nor the upstream is touched. *)
Theorem directory_at_fixture_path (g : globals) (up : upstream) (h : handler)
    (w : world) :
  files w !! request_data_path g h = Some Directory ->
  do_GET g up h w
  = (w, SendError 404 (lit "File Not Found: " ++ path h)
          (lit "The requested URL was not found on this server.")).
Proof. apply do_GET_directory. Qed.

Lemma directory_at_fixture_path_witness :
  do_GET (record_globals false) live collections_handler
    {| files := {[ request_data_path (record_globals false) collections_handler
                   := Directory ]};
       fetched := [] |}
  = ({| files := {[ request_data_path (record_globals false) collections_handler
                    := Directory ]};
        fetched := [] |},
     SendError 404 (lit "File Not Found: " ++ path collections_handler)
       (lit "The requested URL was not found on this server.")).
Proof.
  apply (directory_at_fixture_path (record_globals false) live collections_handler).
  vm_compute. reflexivity.
Defined.

(** ** One GET after another *)

(** With only new records wanted and a fixture path that [open] takes (no NUL
    byte, no name too long), the first recording GET of a key fetches and
    stores the record; a second GET for the same request is answered with
    the same bytes from the store, whatever the upstream would do by then,
    and changes nothing. *)
Theorem second_recording_GET_reads_the_record (g : globals) (up up' : upstream)
    (h : handler) (w : world) (r : response) :
  RECORD g = true -> RECORD_NEW_ONLY g = true ->
  Py.find (lit "/fakeogcapi") (path h) ≠ (-1)%Z ->
  files w !! request_data_path g h = None ->
  path_error (request_data_path g h) = None ->
  up (TEST_DATA_SOURCE_ENDPOINT ++ Py.replace (lit "/fakeogcapi") [] (path h)) = inr r ->
  (do_GET g up h w).2 = Wrote (record_data h r)
  /\ do_GET g up' h (do_GET g up h w).1
     = ((do_GET g up h w).1, Wrote (record_data h r)).
Proof.
  intros HR HN Hf Hp Hok Hup.
  assert (is_fake h = true) as Hfake.
  { rewrite is_fake_find.
    by destruct (Z.eqb_spec (Py.find (lit "/fakeogcapi") (path h)) (-1)). }
  fold (upstream_url h) in Hup.
  rewrite (do_GET_table g up h w), Hfake, Hp, HR, Hok, Hup. cbn [fst snd].
  split; [done|]. apply do_GET_record_skip; [done..|].
  cbn [files]. apply lookup_insert_eq.
Qed.

Lemma second_recording_GET_reads_the_record_witness :
  (do_GET (record_globals true) live collections_handler
     {| files := ∅; fetched := [] |}).2
  = Wrote (record_data collections_handler collections_response)
  /\ do_GET (record_globals true) unreachable collections_handler
       (do_GET (record_globals true) live collections_handler
          {| files := ∅; fetched := [] |}).1
     = ((do_GET (record_globals true) live collections_handler
           {| files := ∅; fetched := [] |}).1,
        Wrote (record_data collections_handler collections_response)).
Proof.
  apply (second_recording_GET_reads_the_record (record_globals true) live unreachable
           collections_handler {| files := ∅; fetched := [] |} collections_response).
  - reflexivity.
  - reflexivity.
  - vm_compute. discriminate.
  - vm_compute. reflexivity.
  - vm_compute. reflexivity.
  - reflexivity.
Defined.

(** What a recording GET stored, under a fixture path that [open] takes (no
    NUL byte, no name too long, no directory there), is what a later replay
    GET for the same path reads, on whatever port and for whatever client:
    the reply is the record passed through the port pattern with the address
    of the replaying handler, and the store stays as the recording left it. *)
Theorem replay_serves_what_was_recorded (g g' : globals) (up up' : upstream)
    (h h' : handler) (w : world) (r : response) :
  RECORD g = true -> RECORD g' = false -> module_dir g' = module_dir g ->
  path h' = path h ->
  Py.find (lit "/fakeogcapi") (path h) ≠ (-1)%Z ->
  RECORD_NEW_ONLY g = false \/ files w !! request_data_path g h = None ->
  files w !! request_data_path g h ≠ Some Directory ->
  path_error (request_data_path g h) = None ->
  up (TEST_DATA_SOURCE_ENDPOINT ++ Py.replace (lit "/fakeogcapi") [] (path h)) = inr r ->
  do_GET g' up' h' (do_GET g up h w).1
  = ((do_GET g up h w).1,
     Wrote (Re.sub REPLACE_PORT_RE (Re.ReplBytes (current_base h')) (record_data h r))).
Proof.
  intros HR HR' Hdir Hpath Hf Hn Hd Hok Hup.
  assert (is_fake h = true) as Hfake.
  { rewrite is_fake_find.
    by destruct (Z.eqb_spec (Py.find (lit "/fakeogcapi") (path h)) (-1)). }
  assert (is_fake h' = true) as Hfake' by (by rewrite is_fake_find, Hpath, <- is_fake_find).
  assert (request_data_path g' h' = request_data_path g h) as Hsame.
  { unfold request_data_path, BASE_TEST_DATA_PATH. by rewrite Hdir, Hpath. }
  fold (upstream_url h) in Hup.
  rewrite (do_GET_record_fetch g up h w), Hup by done. cbn [fst].
  rewrite do_GET_replay, Hfake', Hsame by done. cbn [files].
  by rewrite lookup_insert_eq.
Qed.

Lemma replay_serves_what_was_recorded_witness :
  do_GET replay_globals unreachable
    {| path := lit "/fakeogcapi/collections"; client_host := lit "127.0.0.1";
       server_port := 8093 |}
    (do_GET (record_globals false) live collections_handler
       {| files := ∅; fetched := [] |}).1
  = ((do_GET (record_globals false) live collections_handler
        {| files := ∅; fetched := [] |}).1,
     Wrote (Re.sub REPLACE_PORT_RE
              (Re.ReplBytes (current_base
                 {| path := lit "/fakeogcapi/collections"; client_host := lit "127.0.0.1";
                    server_port := 8093 |}))
              (record_data collections_handler collections_response))).
Proof.
  apply (replay_serves_what_was_recorded (record_globals false) replay_globals
           live unreachable collections_handler
           {| path := lit "/fakeogcapi/collections"; client_host := lit "127.0.0.1";
              server_port := 8093 |}
           {| files := ∅; fetched := [] |} collections_response).
  - reflexivity.
  - reflexivity.
  - reflexivity.
  - reflexivity.
  - vm_compute. discriminate.
  - left. reflexivity.
  - vm_compute. discriminate.
  - vm_compute. reflexivity.
  - reflexivity.
Defined.

(** The record of the example, replayed on port 8093. *)
Example recorded_on_8081_replayed_on_8093 :
  (do_GET replay_globals unreachable
     {| path := lit "/fakeogcapi/collections"; client_host := lit "127.0.0.1";
        server_port := 8093 |}
     (do_GET (record_globals false) live collections_handler
        {| files := ∅; fetched := [] |}).1).2
  = Wrote (lit "HTTP/1.1 200 OK" ++ CRLF
             ++ lit "Content-Type: application/json" ++ CRLF
             ++ lit "Content-Length: 56" ++ CRLF ++ CRLF
             ++ lit "{'self': 'http://127.0.0.1:8093/fakeogcapi/collections'}").
Proof. by vm_compute. Qed.

(** A failed fetch stays in the store: with only new records wanted, no
    record under the key and a fixture path that [open] takes (no NUL byte,
    no name too long), a GET whose fetch fails leaves an empty file there,
    and every later GET for the request, recording or replaying, is answered
    with that empty record, even when the upstream would answer by then. *)
Theorem failed_fetch_is_served_as_empty_record (g g' : globals) (up up' : upstream)
    (h : handler) (w : world) (e : exn) :
  RECORD g = true -> RECORD_NEW_ONLY g = true ->
  RECORD g' = false -> module_dir g' = module_dir g ->
  Py.find (lit "/fakeogcapi") (path h) ≠ (-1)%Z ->
  files w !! request_data_path g h = None ->
  path_error (request_data_path g h) = None ->
  up (TEST_DATA_SOURCE_ENDPOINT ++ Py.replace (lit "/fakeogcapi") [] (path h)) = inl e ->
  do_GET g up' h (do_GET g up h w).1 = ((do_GET g up h w).1, Wrote [])
  /\ do_GET g' up' h (do_GET g up h w).1 = ((do_GET g up h w).1, Wrote []).
Proof.
  intros HR HN HR' Hdir Hf Hp Hok Hup.
  assert (is_fake h = true) as Hfake.
  { rewrite is_fake_find.
    by destruct (Z.eqb_spec (Py.find (lit "/fakeogcapi") (path h)) (-1)). }
  assert (request_data_path g' h = request_data_path g h) as Hsame.
  { unfold request_data_path, BASE_TEST_DATA_PATH. by rewrite Hdir. }
  fold (upstream_url h) in Hup.
  rewrite (do_GET_table g up h w), Hfake, Hp, HR, Hok, Hup. cbn [fst]. split.
  - apply do_GET_record_skip; [done..|]. cbn [files]. apply lookup_insert_eq.
  - rewrite do_GET_replay, Hfake, Hsame by done. cbn [files].
    by rewrite lookup_insert_eq.
Qed.

Lemma failed_fetch_is_served_as_empty_record_witness :
  do_GET (record_globals true) live collections_handler
    (do_GET (record_globals true) unreachable collections_handler
       {| files := ∅; fetched := [] |}).1
  = ((do_GET (record_globals true) unreachable collections_handler
        {| files := ∅; fetched := [] |}).1, Wrote [])
  /\ do_GET replay_globals live collections_handler
       (do_GET (record_globals true) unreachable collections_handler
          {| files := ∅; fetched := [] |}).1
     = ((do_GET (record_globals true) unreachable collections_handler
           {| files := ∅; fetched := [] |}).1, Wrote []).
Proof.
  apply (failed_fetch_is_served_as_empty_record (record_globals true) replay_globals
           unreachable live collections_handler {| files := ∅; fetched := [] |}
           RequestException).
  - reflexivity.
  - reflexivity.
  - reflexivity.
  - reflexivity.
  - vm_compute. discriminate.
  - vm_compute. reflexivity.
  - vm_compute. reflexivity.
  - reflexivity.
Defined.

(** * Further properties of key derivation *)

Section KeyFacts.

Import Py Re.

Local Arguments sub : simpl never.
Local Arguments replace : simpl never.
Local Abbreviation truncate := (sub REPLACE_PRECISION_RE ReplGroup1).
Local Abbreviation unmark := (replace (lit "_fakeogcapi") (lit "request")).

Lemma truncate_length (s : str) : length (truncate s) <= length s.
Proof.
  assert (forall m s, length s <= m -> length (truncate s) <= length s) as H;
    [|by apply (H (length s))].
  clear s. induction m as [|m IH]; intros [|c s] Hm; cbn [length] in Hm; try done;
    [lia|].
  destruct (precision_match (c :: s)) as [[k gr]|] eqn:E.
  - destruct (precision_match_bounds _ _ _ E) as (d & f & -> & -> & Hf & Hlen & _).
    rewrite (sub_precision_hit _ _ _ E), length_app, length_take.
    pose proof (IH (drop (S d + 1 + f) (c :: s))) as IH'.
    rewrite length_drop in IH'. cbn [length] in *. lia.
  - rewrite sub_precision_miss by done. cbn [length].
    pose proof (IH s). lia.
Qed.

Lemma replace_length (o : ascii) (old new s : str) :
  length new <= length (o :: old) ->
  length (replace (o :: old) new s) <= length s.
Proof.
  intros Hn.
  assert (forall m s, length s <= m ->
            length (replace (o :: old) new s) <= length s) as H;
    [|by apply (H (length s))].
  clear s. induction m as [|m IH]; intros [|c s] Hm; cbn [length] in Hm; try done;
    [lia|].
  destruct (starts_with (o :: old) (c :: s)) eqn:E.
  - pose proof (starts_with_length _ _ E) as Hl.
    rewrite replace_hit, length_app by done.
    pose proof (IH (drop (length (o :: old)) (c :: s))) as IH'.
    rewrite length_drop in IH'. cbn [length] in *. lia.
  - rewrite replace_miss by done. cbn [length].
    pose proof (IH s). lia.
Qed.

Lemma sanitize_url_length_le (url : str) : length (sanitize_url url) <= length url.
Proof.
  rewrite sanitize_url_steps.
  change (lit "_fakeogcapi") with ("_"%char :: lit "fakeogcapi").
  etrans; [apply replace_length; cbn; lia|].
  etrans; [apply truncate_length|]. by rewrite length_fmap.
Qed.

Lemma last_snoc_app (a : str) (c : ascii) (b : str) : last (a ++ b ++ [c]) = Some c.
Proof. by rewrite app_assoc, last_snoc. Qed.

Lemma BASE_TEST_DATA_PATH_last (g : globals) : last (BASE_TEST_DATA_PATH g) = Some "i"%char.
Proof.
  unfold BASE_TEST_DATA_PATH.
  generalize (os_path_join (module_dir g) (lit "data")). intros x.
  unfold os_path_join. change (starts_with (lit "/") (lit "ogcapi")) with false.
  cbv iota.
  change (lit "ogcapi") with (lit "ogcap" ++ ["i"%char]).
  destruct (last x) as [c|]; [|by rewrite last_snoc].
  destruct (Ascii.eqb c "/").
  - by rewrite app_assoc, last_snoc.
  - by rewrite !app_assoc, last_snoc.
Qed.

Lemma unreserved_not_slash (s : str) :
  Forall (λ c, reserved c = false) s -> "/"%char ∉ s.
Proof.
  intros H Hin. rewrite Forall_forall in H. by specialize (H _ Hin).
Qed.

Lemma runs_below_five_settled (s : str) :
  (forall k, leading (drop k s) < 5) -> settled s = true.
Proof.
  induction s as [|c s IH]; intros H; [done|].
  apply settled_cons. split; [|apply IH; intros k; apply (H (S k))].
  destruct (precision_match (c :: s)) as [[m gr]|] eqn:E; [|done].
  destruct (precision_match_bounds _ _ _ E) as (d & f & _ & _ & Hf & _ & _ & Hl).
  specialize (H (S d + 1)). lia.
Qed.

Lemma leading_drop_le_longest (k : nat) (s : str) :
  leading (drop k s) <= longest_digit_run s.
Proof.
  revert k. induction s as [|c s IH]; intros k; [by rewrite drop_nil|].
  destruct k as [|k].
  - rewrite drop_0. cbn [longest_digit_run]. lia.
  - cbn [drop longest_digit_run]. specialize (IH k). lia.
Qed.

End KeyFacts.

(** A key is never longer than the path it is derived from. *)
Theorem sanitize_url_never_longer (url : str) :
  length (sanitize_url url) <= length url
  /\ length (sanitize_url url ++ lit ".http_data") <= length url + 10.
Proof.
  pose proof (sanitize_url_length_le url) as H. split; [done|].
  rewrite length_app. change (length (lit ".http_data")) with 10. lia.
Qed.

(** On a POSIX system, where [os.path.join] is [posixpath.join] and [/] is
    the one separator: the file of a request lies in the test data directory
    itself, whatever the request path is; the join keeps the directory, and
    the file name holds no [/]. *)
Theorem fixture_file_stays_in_data_directory (g : globals) (h : handler) :
  request_data_path g h
  = BASE_TEST_DATA_PATH g ++ lit "/" ++ sanitize_url (path h) ++ lit ".http_data"
  /\ "/"%char ∉ sanitize_url (path h) ++ lit ".http_data".
Proof.
  pose proof (sanitize_url_unreserved (path h)) as Hk.
  assert ("/"%char ∉ sanitize_url (path h) ++ lit ".http_data") as Hno.
  { apply unreserved_not_slash, Forall_app. split; [done|]. by repeat constructor. }
  split; [|done].
  unfold request_data_path, Py.os_path_join.
  rewrite BASE_TEST_DATA_PATH_last.
  change (Ascii.eqb "i" "/") with false. cbv iota.
  destruct (sanitize_url (path h) ++ lit ".http_data") as [|c name] eqn:E; [done|].
  change (lit "/") with ["/"%char]. cbn [Py.starts_with].
  destruct (Ascii.eqb_spec "/"%char c) as [<-|]; [|done].
  exfalso. apply Hno. by left.
Qed.

(** The characters of the reserved set are not told apart: two paths that
    differ in one reserved character derive the same key. *)
Theorem reserved_characters_collide (a b : ascii) (pre post : str) :
  reserved a = true -> reserved b = true ->
  sanitize_url (pre ++ a :: post) = sanitize_url (pre ++ b :: post).
Proof.
  intros Ha Hb. rewrite !sanitize_url_steps, !fmap_app, !fmap_cons.
  assert (mask a = mask b) as -> by (unfold mask; by rewrite Ha, Hb). done.
Qed.

Lemma reserved_characters_collide_witness :
  sanitize_url (lit "/fakeogcapi/collections" ++ "?"%char :: lit "f=json")
  = sanitize_url (lit "/fakeogcapi/collections" ++ "/"%char :: lit "f=json").
Proof.
  apply (reserved_characters_collide "?" "/" (lit "/fakeogcapi/collections")
           (lit "f=json")).
  - reflexivity.
  - reflexivity.
Defined.

(** A path in which digits never come five in a row loses no digit: its key
    is the path with the reserved characters masked and the marker replaced. *)
Theorem short_digit_runs_are_kept (url : str) :
  longest_digit_run url < 5 ->
  sanitize_url url = Py.replace (lit "_fakeogcapi") (lit "request") (mask <$> url).
Proof.
  intros H. rewrite sanitize_url_steps, truncate_settled; [done|].
  apply runs_below_five_settled. intros k.
  rewrite <- fmap_drop, leading_mask.
  pose proof (leading_drop_le_longest k url). lia.
Qed.

Lemma short_digit_runs_are_kept_witness :
  sanitize_url (lit "/fakeogcapi/tiles/2/1/3.mvt")
  = Py.replace (lit "_fakeogcapi") (lit "request")
      (mask <$> lit "/fakeogcapi/tiles/2/1/3.mvt").
Proof.
  apply (short_digit_runs_are_kept (lit "/fakeogcapi/tiles/2/1/3.mvt")).
  vm_compute. lia.
Defined.

(** * What the two patterns match *)

Section PatternFacts.

Import Py Re.

Lemma precision_match_number (int frac rest : str) :
  int ≠ [] ->
  Forall (λ c, is_digit c = true) int ->
  Forall (λ c, is_digit c = true) frac ->
  leading rest = 0 ->
  precision_match (int ++ "."%char :: frac ++ rest)
  = if 5 <=? length frac
    then Some (length int + 1 + length frac, Some (0, length int + 5))
    else None.
Proof.
  intros Hi Hdi Hdf Hr. unfold precision_match. rewrite leading_app by done.
  cbn [leading]. change (is_digit "."%char) with false.
  rewrite Nat.add_0_r. destruct int as [|c int]; [done|].
  cbn [length]. rewrite drop_app_length' by done.
  rewrite leading_app, Hr, Nat.add_0_r by done.
  change (Ascii.eqb "."%char "."%char) with true. cbn [andb].
  by destruct (5 <=? length frac).
Qed.

Lemma precision_match_shape (s : str) (m : found) :
  precision_match s = Some m ->
  exists int frac rest,
    s = int ++ "."%char :: frac ++ rest
    /\ int ≠ []
    /\ Forall (λ c, is_digit c = true) int
    /\ Forall (λ c, is_digit c = true) frac
    /\ leading rest = 0
    /\ 5 <= length frac
    /\ m = (length int + 1 + length frac, Some (0, length int + 5)).
Proof.
  unfold precision_match. destruct (leading s) as [|d] eqn:L; [done|].
  destruct (drop (S d) s) as [|c r] eqn:D; [done|].
  destruct (Ascii.eqb_spec "."%char c) as [<-|]; [|done]. cbn [andb].
  destruct (Nat.leb_spec 5 (leading r)) as [H5|]; [|done]. intros [= <-].
  pose proof (leading_le s) as Hs. pose proof (leading_le r) as Hr.
  exists (take (S d) s), (take (leading r) r), (drop (leading r) r).
  assert (length (take (S d) s) = S d) as Hli by (rewrite length_take; lia).
  assert (length (take (leading r) r) = leading r) as Hlf by (rewrite length_take; lia).
  rewrite Hli, Hlf. repeat split.
  - by rewrite take_drop, <- D, take_drop.
  - intros E. rewrite E in Hli. done.
  - rewrite <- L. apply leading_take.
  - apply leading_take.
  - apply leading_stop.
  - done.
Qed.

Lemma newline_eqb (c : ascii) : c ≠ "010"%char -> Ascii.eqb c "010" = false.
Proof. intros H. by destruct (Ascii.eqb_spec c "010"%char). Qed.

Lemma re_match_port_wild (c1 c2 c3 : ascii) (port rest : str) :
  c1 ≠ "010"%char -> c2 ≠ "010"%char -> c3 ≠ "010"%char ->
  length port = 4 -> Forall (λ c, is_digit c = true) port ->
  re_match REPLACE_PORT_RE
    (lit "http://127" ++ c1 :: lit "0" ++ c2 :: lit "0" ++ c3 :: lit "1:" ++ port ++ rest)
  = Some (21, None).
Proof.
  intros H1 H2 H3 Hlen Hd.
  destruct port as [|a [|b [|c [|d [|]]]]]; try done.
  apply Forall_cons in Hd as [Ha Hd]. apply Forall_cons in Hd as [Hb Hd].
  apply Forall_cons in Hd as [Hc Hd]. apply Forall_cons in Hd as [Hd _].
  unfold re_match, REPLACE_PORT_RE, lit. cbn.
  by rewrite (newline_eqb _ H1), (newline_eqb _ H2), (newline_eqb _ H3), Ha, Hb, Hc, Hd.
Qed.

Lemma run_any (r : regex) (s : str) (pos : nat) (g : span)
    (k : str -> nat -> span -> option found) (m : found) :
  run (Seq (Atom CAny) r) s pos g k = Some m ->
  exists c s', s = c :: s' /\ c ≠ "010"%char /\ run r s' (S pos) g k = Some m.
Proof.
  cbn [run cmatch]. destruct s as [|c s']; [done|].
  destruct (Ascii.eqb_spec c "010"%char); [done|]. cbn [negb]. by exists c, s'.
Qed.

Lemma run_chars_some (l : str) (r : regex) (s : str) (pos : nat) (g : span)
    (k : str -> nat -> span -> option found) (m : found) :
  run (chars l r) s pos g k = Some m ->
  exists s', s = l ++ s' /\ run r s' (pos + length l) g k = Some m.
Proof.
  rewrite run_chars. destruct (starts_with l s) eqn:E; [|done].
  intros H. exists (drop (length l) s). split; [by apply starts_with_split|done].
Qed.

Lemma re_match_port_shape (s : str) (m : found) :
  re_match REPLACE_PORT_RE s = Some m ->
  m = (21, None)
  /\ exists c1 c2 c3 port rest,
       s = lit "http://127" ++ c1 :: lit "0" ++ c2 :: lit "0" ++ c3 :: lit "1:"
             ++ port ++ rest
       /\ c1 ≠ "010"%char /\ c2 ≠ "010"%char /\ c3 ≠ "010"%char
       /\ length port = 4 /\ Forall (λ c, is_digit c = true) port.
Proof.
  unfold re_match, REPLACE_PORT_RE. intros H.
  apply run_chars_some in H as (s1 & -> & H).
  apply run_any in H as (c1 & s2 & -> & Hc1 & H).
  apply run_chars_some in H as (s3 & -> & H).
  apply run_any in H as (c2 & s4 & -> & Hc2 & H).
  apply run_chars_some in H as (s5 & -> & H).
  apply run_any in H as (c3 & s6 & -> & Hc3 & H).
  apply run_chars_some in H as (s7 & -> & H).
  cbn [run] in H. rewrite rep_go_digits in H.
  destruct (Nat.leb_spec 4 (leading s7)) as [H4|]; [|done].
  injection H as <-. split; [done|].
  pose proof (leading_le s7) as Hle.
  exists c1, c2, c3, (take 4 s7), (drop 4 s7). repeat split; try done.
  - by rewrite take_drop.
  - rewrite length_take. lia.
  - replace (take 4 s7) with (take 4 (take (leading s7) s7)).
    + apply Forall_take, leading_take.
    + rewrite take_take. f_equal. lia.
Qed.

End PatternFacts.

(** The precision pattern matches at the start of a string exactly when the
    string starts with digits, a point and five digits or more; the match
    then takes every digit on both sides of the point, and group 1 ends
    after the fourth decimal. *)
Theorem precision_pattern_matches (s : str) (m : Re.found) :
  Re.re_match REPLACE_PRECISION_RE s = Some m
  <-> exists int frac rest,
        s = int ++ "."%char :: frac ++ rest
        /\ int ≠ []
        /\ Forall (λ c, Re.is_digit c = true) int
        /\ Forall (λ c, Re.is_digit c = true) frac
        /\ leading rest = 0
        /\ 5 <= length frac
        /\ m = (length int + 1 + length frac, Some (0, length int + 5)).
Proof.
  rewrite re_match_precision. split; [apply precision_match_shape|].
  intros (int & frac & rest & -> & Hi & Hdi & Hdf & Hr & H5 & ->).
  rewrite precision_match_number by done.
  by destruct (Nat.leb_spec 5 (length frac)); [|lia].
Qed.

(** The port pattern matches at the start of a string exactly when the
    string starts with [http://127], any byte but a newline, [0], any such
    byte, [0], any such byte, [1:] and four digits: the three dots of the
    host are not literal. The match is always 21 bytes long. *)
Theorem port_pattern_matches (s : str) (m : Re.found) :
  Re.re_match REPLACE_PORT_RE s = Some m
  <-> m = (21, None)
      /\ exists c1 c2 c3 port rest,
           s = lit "http://127" ++ c1 :: lit "0" ++ c2 :: lit "0" ++ c3 :: lit "1:"
                 ++ port ++ rest
           /\ c1 ≠ "010"%char /\ c2 ≠ "010"%char /\ c3 ≠ "010"%char
           /\ length port = 4 /\ Forall (λ c, Re.is_digit c = true) port.
Proof.
  split; [apply re_match_port_shape|].
  intros (-> & c1 & c2 & c3 & port & rest & -> & H1 & H2 & H3 & Hlen & Hd).
  by apply re_match_port_wild.
Qed.

(** On replay a URL is rewritten also when other bytes stand where the dots
    of the loopback address should be. *)
Example replay_rewrites_other_hosts :
  Re.sub REPLACE_PORT_RE (Re.ReplBytes (current_base collections_handler))
    (lit "see http://127a0b0c1:8080/x")
  = lit "see http://127.0.0.1:8081/x".
Proof. by vm_compute. Qed.

(** * From a recording run to a replay *)

Section RoundTrip.

Import Py Re.

Local Arguments sub : simpl never.

(** A port between 1000 and 9999 prints as four digits. *)
Lemma str_of_N_four_digits (n : N) :
  (1000 <= n <= 9999)%N ->
  length (str_of_N n) = 4 /\ Forall (λ c, is_digit c = true) (str_of_N n).
Proof.
  intros Hn.
  assert (forallb (λ k, (length (str_of_N (1000 + N.of_nat k)) =? 4)
                        && forallb is_digit (str_of_N (1000 + N.of_nat k)))
            (seq 0 (N.to_nat 9000)) = true) as Hall by (vm_compute; reflexivity).
  rewrite forallb_forall in Hall.
  specialize (Hall (N.to_nat (n - 1000))).
  replace (1000 + N.of_nat (N.to_nat (n - 1000)))%N with n in Hall by lia.
  destruct (andb_prop _ _ (Hall ltac:(apply in_seq; lia))) as [Hl Hd].
  split; [by apply Nat.eqb_eq|].
  apply Forall_forall. intros c Hc. rewrite forallb_forall in Hd.
  apply Hd. by apply list_elem_of_In.
Qed.

Lemma encode_utf8_app (a b : str) : encode_utf8 (a ++ b) = encode_utf8 a ++ encode_utf8 b.
Proof. unfold encode_utf8. apply flat_map_app. Qed.

Lemma digit_below_128 (c : ascii) : is_digit c = true -> (nat_of_ascii c <? 128) = true.
Proof.
  unfold is_digit. intros [_ H]%andb_prop. apply Nat.leb_le in H.
  apply Nat.ltb_lt. lia.
Qed.

Lemma encode_utf8_digits (s : str) :
  Forall (λ c, is_digit c = true) s -> encode_utf8 s = s.
Proof.
  induction 1 as [|c s Hc _ IH]; [done|].
  unfold encode_utf8 in *. cbn [flat_map]. rewrite IH.
  by rewrite (digit_below_128 c Hc).
Qed.

(** The local endpoint ends in the marker, behind the address that replay
    writes. *)
Lemma local_uri_current_base (h : handler) :
  local_uri h = current_base h ++ lit "/fakeogcapi".
Proof.
  unfold local_uri, current_base.
  rewrite !app_assoc, encode_utf8_app. done.
Qed.

Lemma current_base_loopback (h : handler) :
  client_host h = lit "127.0.0.1" -> (1000 <= server_port h <= 9999)%N ->
  current_base h = recorded_url (str_of_N (server_port h)).
Proof.
  intros Hh Hp. destruct (str_of_N_four_digits _ Hp) as [_ Hd].
  unfold current_base, address_string, recorded_url. rewrite Hh.
  rewrite !encode_utf8_app, (encode_utf8_digits _ Hd). done.
Qed.

Lemma sub_port_marker (new rest : str) :
  sub REPLACE_PORT_RE (ReplBytes new) (lit "/fakeogcapi" ++ rest)
  = lit "/fakeogcapi" ++ sub REPLACE_PORT_RE (ReplBytes new) rest.
Proof.
  apply sub_port_plain. intros k Hk.
  do 11 (destruct k as [|k]; [done|]). cbn [length lit list_ascii_of_string] in Hk. lia.
Qed.

End RoundTrip.

(** A local endpoint URL that a recording run wrote into a record, for a
    loopback client and behind a port of four digits, is on replay the local
    endpoint URL of the replaying handler; the bytes before it, free of
    [http://127], stay, and the rewriting goes on behind it. *)
Theorem recorded_endpoint_follows_the_replay_port (h1 h2 : handler) (pre rest : str) :
  client_host h1 = lit "127.0.0.1" ->
  (1000 <= server_port h1 <= 9999)%N ->
  Py.find (lit "http://127") pre = (-1)%Z ->
  Re.sub REPLACE_PORT_RE (Re.ReplBytes (current_base h2)) (pre ++ local_uri h1 ++ rest)
  = pre ++ local_uri h2 ++ Re.sub REPLACE_PORT_RE (Re.ReplBytes (current_base h2)) rest.
Proof.
  intros Hh Hp Hpre.
  destruct (str_of_N_four_digits _ Hp) as [Hl Hd].
  rewrite !local_uri_current_base, (current_base_loopback h1) by done.
  rewrite <- !app_assoc.
  rewrite sub_port_plain.
  - by rewrite sub_port_url, sub_port_marker.
  - intros k Hk. unfold recorded_url. rewrite <- app_assoc.
    by apply (plain_before_h pre (lit "ttp://127.0.0.1:" ++ _) k).
Qed.

Lemma recorded_endpoint_follows_the_replay_port_witness :
  Re.sub REPLACE_PORT_RE
    (Re.ReplBytes (current_base
       {| path := lit "/fakeogcapi/collections"; client_host := lit "127.0.0.1";
          server_port := 8093 |}))
    (lit "{'self': '" ++ local_uri collections_handler ++ lit "/collections'}")
  = lit "{'self': '"
      ++ local_uri {| path := lit "/fakeogcapi/collections";
                      client_host := lit "127.0.0.1"; server_port := 8093 |}
      ++ Re.sub REPLACE_PORT_RE
           (Re.ReplBytes (current_base
              {| path := lit "/fakeogcapi/collections"; client_host := lit "127.0.0.1";
                 server_port := 8093 |}))
           (lit "/collections'}").
Proof.
  apply (recorded_endpoint_follows_the_replay_port collections_handler
           {| path := lit "/fakeogcapi/collections"; client_host := lit "127.0.0.1";
              server_port := 8093 |}
           (lit "{'self': '") (lit "/collections'}")).
  - reflexivity.
  - vm_compute. split; discriminate.
  - vm_compute. reflexivity.
Defined.

(** * The URL fetched while recording *)

Lemma replace_nothing (o : ascii) (old new s : str) :
  (forall k, Py.starts_with (o :: old) (drop k s) = false) ->
  Py.replace (o :: old) new s = s.
Proof.
  induction s as [|c s IH]; intros H; [done|].
  rewrite replace_miss by apply (H 0). f_equal. apply IH.
  intros k. apply (H (S k)).
Qed.

(** For a path that starts with the marker and does not hold it again, the
    request is synthetic and the URL fetched while recording is the upstream
    endpoint followed by the path behind the marker. *)
Theorem upstream_url_of_synthetic_path (h : handler) (rest : str) :
  path h = lit "/fakeogcapi" ++ rest ->
  Py.find (lit "/fakeogcapi") rest = (-1)%Z ->
  Py.find (lit "/fakeogcapi") (path h) = 0%Z
  /\ upstream_url h = lit "https://maps.gnosis.earth/ogcapi" ++ rest.
Proof.
  intros Hp Hr. unfold upstream_url. rewrite Hp. split.
  - unfold Py.find. destruct (lit "/fakeogcapi" ++ rest) as [|c s] eqn:E; [done|].
    cbn [Py.find_from]. rewrite <- E. by rewrite starts_with_app.
  - change (lit "/fakeogcapi") with ("/"%char :: lit "fakeogcapi") at 1.
    rewrite replace_hit by apply starts_with_app.
    rewrite drop_app_length. cbn [app]. f_equal.
    apply replace_nothing. by apply find_absent.
Qed.

Lemma upstream_url_of_synthetic_path_witness :
  Py.find (lit "/fakeogcapi") (path collections_handler) = 0%Z
  /\ upstream_url collections_handler
     = lit "https://maps.gnosis.earth/ogcapi" ++ lit "/collections".
Proof.
  apply (upstream_url_of_synthetic_path collections_handler (lit "/collections")).
  - reflexivity.
  - vm_compute. reflexivity.
Defined.
